(* ===================================================================== *)
(* CwaWeather-backend: src/server.js                                     *)
(*                                                                       *)
(* A shallow embedding of the location resolver, the in-memory cache,    *)
(* the forecast transformer and the request handler getWeatherByLocation *)
(* together with the properties the specification states about them.     *)
(* ===================================================================== *)

From Stdlib Require Import ZArith NArith Ascii String List Lia.
From stdpp Require Import base option list gmap.

Local Open Scope Z_scope.

(* ===================================================================== *)
(* JavaScript strings                                                    *)
(* ===================================================================== *)

(* A JavaScript string is a sequence of UTF-16 code units
   (numbers below 65536).  startsWith, slice, trim and === all work on
   code units, so the model keeps them. *)
Abbreviation jsstring := (list N).

Module Utf.

(* The literals of server.js are written here as Rocq string literals,
   which hold the UTF-8 bytes of the source text; [units] decodes them
   to the UTF-16 code units the JavaScript engine sees. *)

Definition cont (b : N) : N := N.land b 63.

Definition surrogates (cp : N) : list N :=
  let v := (cp - 65536)%N in
  [(55296 + N.shiftr v 10)%N; (56320 + N.land v 1023)%N].

Fixpoint units (bs : list N) : list N :=
  match bs with
  | [] => []
  | b0 :: r0 =>
    if (b0 <? 128)%N then b0 :: units r0
    else
      match r0 with
      | [] => [65533%N]
      | b1 :: r1 =>
        if (b0 <? 224)%N
        then (N.shiftl (N.land b0 31) 6 + cont b1)%N :: units r1
        else
          match r1 with
          | [] => [65533%N]
          | b2 :: r2 =>
            if (b0 <? 240)%N
            then (N.shiftl (N.land b0 15) 12 + N.shiftl (cont b1) 6
                  + cont b2)%N :: units r2
            else
              match r2 with
              | [] => [65533%N]
              | b3 :: r3 =>
                surrogates (N.shiftl (N.land b0 7) 18
                            + N.shiftl (cont b1) 12
                            + N.shiftl (cont b2) 6 + cont b3)%N
                ++ units r3
              end
          end
      end
  end.

Fixpoint bytes (s : string) : list N :=
  match s with
  | EmptyString => []
  | String a s' => N_of_ascii a :: bytes s'
  end.

End Utf.

(* [js "..."] is the JavaScript string written "..." in the source. *)
Definition js (s : string) : jsstring := Utf.units (Utf.bytes s).

(* WhiteSpace and LineTerminator code points, the ones
   String.prototype.trim removes. *)
Definition isWhiteSpace (c : N) : bool :=
  ((9 <=? c) && (c <=? 13) || (c =? 32) || (c =? 160) || (c =? 5760)
   || (8192 <=? c) && (c <=? 8202) || (c =? 8232) || (c =? 8233)
   || (c =? 8239) || (c =? 8287) || (c =? 12288) || (c =? 65279))%N.

Fixpoint trimStart (s : jsstring) : jsstring :=
  match s with
  | [] => []
  | c :: s' => if isWhiteSpace c then trimStart s' else s
  end.

Definition trimEnd (s : jsstring) : jsstring := rev (trimStart (rev s)).

(* String.prototype.trim *)
Definition trim (s : jsstring) : jsstring := trimEnd (trimStart s).

(* s.startsWith(p) *)
Fixpoint startsWith (s p : jsstring) : bool :=
  match p, s with
  | [], _ => true
  | _ :: _, [] => false
  | a :: p', b :: s' => (a =? b)%N && startsWith s' p'
  end.

(* s.slice(1) *)
Definition slice1 (s : jsstring) : jsstring := drop 1 s.

(* ===================================================================== *)
(* Location resolver                                                     *)
(* ===================================================================== *)

Definition VALID_LOCATIONS : list jsstring :=
  map js
    ["臺北市"; "新北市"; "桃園市"; "臺中市"; "臺南市"; "高雄市"; "基隆市";
     "新竹市"; "新竹縣"; "苗栗縣"; "彰化縣"; "南投縣"; "雲林縣"; "嘉義市";
     "嘉義縣"; "屏東縣"; "宜蘭縣"; "花蓮縣"; "臺東縣"; "澎湖縣"; "金門縣";
     "連江縣"]%string.

(* The own properties of the object literal LOCATION_ALIASES, in source
   order. *)
Definition LOCATION_ALIASES : list (jsstring * jsstring) :=
  map (fun kv => (js (fst kv), js (snd kv)))
    [("台北市", "臺北市"); ("台中市", "臺中市"); ("台南市", "臺南市");
     ("台東縣", "臺東縣");
     ("taipei", "臺北市"); ("newtaipei", "新北市"); ("taoyuan", "桃園市");
     ("taichung", "臺中市"); ("tainan", "臺南市"); ("kaohsiung", "高雄市");
     ("keelung", "基隆市"); ("hsinchu_city", "新竹市");
     ("hsinchu_county", "新竹縣"); ("miaoli", "苗栗縣");
     ("changhua", "彰化縣"); ("nantou", "南投縣"); ("yunlin", "雲林縣");
     ("chiayi_city", "嘉義市"); ("chiayi_county", "嘉義縣");
     ("pingtung", "屏東縣"); ("yilan", "宜蘭縣"); ("hualien", "花蓮縣");
     ("taitung", "臺東縣"); ("penghu", "澎湖縣"); ("kinmen", "金門縣");
     ("lienchiang", "連江縣")]%string.

(* LOCATION_ALIASES is an ordinary object, so a property read that misses
   the own properties continues on Object.prototype.  These are the names
   found there; each holds a function, except __proto__ which holds the
   prototype object itself. *)
Definition OBJECT_PROTOTYPE_KEYS : list jsstring :=
  map js
    ["constructor"; "__defineGetter__"; "__defineSetter__"; "hasOwnProperty";
     "__lookupGetter__"; "__lookupSetter__"; "isPrototypeOf";
     "propertyIsEnumerable"; "toString"; "valueOf"; "__proto__";
     "toLocaleString"]%string.

(* The values normalizeLocation can return: a string, or a member of
   Object.prototype (a function or object, never a string). *)
Inductive JsVal :=
| VStr (s : jsstring)
| VProto (name : jsstring).

#[global] Instance JsVal_eq_dec : EqDecision JsVal.
Proof. solve_decision. Defined.

(* ToBoolean *)
Definition truthy (v : JsVal) : bool :=
  match v with
  | VStr [] => false
  | VStr (_ :: _) => true
  | VProto _ => true
  end.

(* The own property named k, when there is one. *)
Fixpoint ownProperty (o : list (jsstring * jsstring)) (k : jsstring)
  : option jsstring :=
  match o with
  | [] => None
  | (k', v) :: o' => if decide (k' = k) then Some v else ownProperty o' k
  end.

(* LOCATION_ALIASES[k]; None is undefined. *)
Definition aliasGet (k : jsstring) : option JsVal :=
  match ownProperty LOCATION_ALIASES k with
  | Some v => Some (VStr v)
  | None =>
    if decide (k ∈ OBJECT_PROTOTYPE_KEYS) then Some (VProto k) else None
  end.

(* if (LOCATION_ALIASES[k]) return LOCATION_ALIASES[k]; *)
Definition aliasHit (k : jsstring) : option JsVal :=
  match aliasGet k with
  | Some v => if truthy v then Some v else None
  | None => None
  end.

Definition normalizeLocation (input : jsstring) : JsVal :=
  if negb (truthy (VStr input)) then VStr []
  else
    let raw := trim input in
    match aliasHit raw with
    | Some v => v
    | None =>
      let t := if startsWith raw (js "台") then js "臺" ++ slice1 raw
               else raw in
      match aliasHit t with
      | Some v => v
      | None => VStr t
      end
    end.

(* VALID_LOCATIONS.includes(name) *)
Definition isValidLocation (name : JsVal) : bool :=
  match name with
  | VStr s => bool_decide (s ∈ VALID_LOCATIONS)
  | VProto _ => false
  end.

(* ===================================================================== *)
(* Cache                                                                 *)
(* ===================================================================== *)

(* Date.now() is a number of milliseconds; the clock reading is passed in. *)
Definition CACHE_TTL_MS : Z := 3 * 60 * 1000.

Record CacheEntry (V : Type) := mkEntry { expires : Z; data : V }.
Arguments mkEntry {V} _ _.
Arguments expires {V} _.
Arguments data {V} _.

Section Cache.
Context {V : Type}.

(* getCache returns the value found (None is null) and the Map as the
   call leaves it. *)
Definition getCache (cache : gmap jsstring (CacheEntry V)) (now : Z)
    (key : jsstring) : option V * gmap jsstring (CacheEntry V) :=
  match cache !! key with
  | None => (None, cache)
  | Some hit =>
    if now >? expires hit then (None, delete key cache)
    else (Some (data hit), cache)
  end.

Definition setCache (cache : gmap jsstring (CacheEntry V)) (now : Z)
    (key : jsstring) (d : V) : gmap jsstring (CacheEntry V) :=
  <[key := mkEntry (now + CACHE_TTL_MS) d]> cache.

End Cache.

(* ===================================================================== *)
(* Upstream payload                                                      *)
(* ===================================================================== *)

(* The JSON the CWA datastore returns for F-C0032-001: objects and arrays
   as records and lists, with None for a member that is not there
   (undefined).  Every member the handler reads through ?. or || is
   optional.  Leaf members hold strings, as the datastore sends them; null
   and non-string leaves are outside this model. *)
Module Cwa.

Record Param := { parameterName : option jsstring }.

Record TimeEntry := {
  startTime : option jsstring;
  endTime : option jsstring;
  parameter : option Param
}.

Record WeatherElement := {
  elementName : option jsstring;
  time : option (list TimeEntry)
}.

Record Location := {
  locationName : option jsstring;
  weatherElement : option (list WeatherElement)
}.

Record Records := {
  datasetDescription : option jsstring;
  location : option (list Location)
}.

(* response.data *)
Record Data := { records : option Records }.

(* error.response.data: the body of a non-2xx reply *)
Record ErrorBody := { message : option jsstring; rest : jsstring }.

End Cwa.

(* ===================================================================== *)
(* Forecast transformer                                                  *)
(* ===================================================================== *)

Record Forecast := {
  startTime : jsstring;
  endTime : jsstring;
  weather : jsstring;
  rain : jsstring;
  minTemp : jsstring;
  maxTemp : jsstring;
  comfort : jsstring;
  windSpeed : jsstring
}.

Record WeatherData := {
  city : option jsstring;
  updateTime : jsstring;
  forecasts : list Forecast
}.

(* forecast.weather = v, and so on *)
Definition set_weather (v : jsstring) (f : Forecast) : Forecast :=
  {| startTime := startTime f; endTime := endTime f; weather := v;
     rain := rain f; minTemp := minTemp f; maxTemp := maxTemp f;
     comfort := comfort f; windSpeed := windSpeed f |}.

Definition set_rain (v : jsstring) (f : Forecast) : Forecast :=
  {| startTime := startTime f; endTime := endTime f; weather := weather f;
     rain := v; minTemp := minTemp f; maxTemp := maxTemp f;
     comfort := comfort f; windSpeed := windSpeed f |}.

Definition set_minTemp (v : jsstring) (f : Forecast) : Forecast :=
  {| startTime := startTime f; endTime := endTime f; weather := weather f;
     rain := rain f; minTemp := v; maxTemp := maxTemp f;
     comfort := comfort f; windSpeed := windSpeed f |}.

Definition set_maxTemp (v : jsstring) (f : Forecast) : Forecast :=
  {| startTime := startTime f; endTime := endTime f; weather := weather f;
     rain := rain f; minTemp := minTemp f; maxTemp := v;
     comfort := comfort f; windSpeed := windSpeed f |}.

Definition set_comfort (v : jsstring) (f : Forecast) : Forecast :=
  {| startTime := startTime f; endTime := endTime f; weather := weather f;
     rain := rain f; minTemp := minTemp f; maxTemp := maxTemp f;
     comfort := v; windSpeed := windSpeed f |}.

(* x || y on an optional string: x unless it is undefined or empty *)
Definition orElse (x : option jsstring) (y : jsstring) : jsstring :=
  match x with
  | Some (c :: s) => c :: s
  | _ => y
  end.

(* val !== undefined && val !== "" ? `${val}<unit>` : "" *)
Definition withUnit (val : option jsstring) (unit : jsstring) : jsstring :=
  match val with
  | Some (c :: s) => (c :: s) ++ unit
  | _ => []
  end.

(* element?.time?.[i]?.parameter?.parameterName *)
Definition valueAt (element : Cwa.WeatherElement) (i : nat)
  : option jsstring :=
  ((Cwa.time element ≫= (fun ts : list Cwa.TimeEntry => ts !! i))
     ≫= Cwa.parameter) ≫= Cwa.parameterName.

Definition named (element : Cwa.WeatherElement) (n : string) : Prop :=
  Cwa.elementName element = Some (js n).

(* The body of the loop over weatherElements: the switch. *)
Definition applyElement (i : nat) (forecast : Forecast)
    (element : Cwa.WeatherElement) : Forecast :=
  let val := valueAt element i in
  match Cwa.elementName element with
  | None => forecast
  | Some n =>
    if decide (n = js "Wx") then set_weather (orElse val []) forecast
    else if decide (n = js "PoP") then
      set_rain (withUnit val (js "%")) forecast
    else if decide (n = js "PoP6h") then
      set_rain (withUnit val (js "%")) forecast
    else if decide (n = js "MinT") then
      set_minTemp (withUnit val (js "°C")) forecast
    else if decide (n = js "MaxT") then
      set_maxTemp (withUnit val (js "°C")) forecast
    else if decide (n = js "CI") then set_comfort (orElse val []) forecast
    else forecast
  end.

(* The forecast object as the loop body creates it. *)
Definition newForecast (baseTimes : list Cwa.TimeEntry) (i : nat) : Forecast :=
  {| startTime := orElse (baseTimes !! i ≫= Cwa.startTime) [];
     endTime := orElse (baseTimes !! i ≫= Cwa.endTime) [];
     weather := []; rain := []; minTemp := []; maxTemp := [];
     comfort := []; windSpeed := [] |}.

(* One turn of the outer loop: the record pushed for period i. *)
Definition forecastAt (baseTimes : list Cwa.TimeEntry)
    (weatherElements : list Cwa.WeatherElement) (i : nat) : Forecast :=
  fold_left (applyElement i) weatherElements (newForecast baseTimes i).

Definition isWx (e : Cwa.WeatherElement) : bool :=
  bool_decide (Cwa.elementName e = Some (js "Wx")).

(* weatherElements.find((e) => e.elementName === "Wx") || weatherElements[0] *)
Definition wxElOf (weatherElements : list Cwa.WeatherElement)
  : option Cwa.WeatherElement :=
  match List.find isWx weatherElements with
  | Some e => Some e
  | None => head weatherElements
  end.

(* wxEl?.time || [] *)
Definition baseTimesOf (weatherElements : list Cwa.WeatherElement)
  : list Cwa.TimeEntry :=
  default [] (wxElOf weatherElements ≫= Cwa.time).

(* locationData.weatherElement || [] *)
Definition weatherElementsOf (locationData : Cwa.Location)
  : list Cwa.WeatherElement :=
  default [] (Cwa.weatherElement locationData).

(* records?.location?.[0] || null *)
Definition pickFirstLocation (records : option Cwa.Records)
  : option Cwa.Location :=
  (records ≫= Cwa.location) ≫= head.

(* Lines 171-223: weatherData once the loops have run.  The outer loop
   for (let i = 0; i < timeCount; i++) pushes one record per index, in
   order, which is the image of 0, ..., timeCount - 1 under forecastAt. *)
Definition buildWeatherData (records : option Cwa.Records)
    (locationData : Cwa.Location) : WeatherData :=
  let weatherElements := weatherElementsOf locationData in
  let baseTimes := baseTimesOf weatherElements in
  let timeCount := length baseTimes in
  {| city := Cwa.locationName locationData;
     updateTime := orElse (records ≫= Cwa.datasetDescription)
                     (js "三十六小時天氣預報");
     forecasts := forecastAt baseTimes weatherElements
                    <$> seq 0 timeCount |}.

(* ===================================================================== *)
(* Request handler                                                       *)
(* ===================================================================== *)

(* req.query.city, req.query.locationName, req.params.city and
   req.params.location, each a string or undefined (None).  A repeated or
   bracketed query key, which the query parser turns into an array or an
   object, is outside this model. *)
Record Request := {
  query_city : option jsstring;
  query_locationName : option jsstring;
  params_city : option jsstring;
  params_location : option jsstring
}.

(* What axios.get settles to: a 2xx reply with its body, or a rejection
   whose error carries the reply (non-2xx status) or carries none
   (network failure, timeout). *)
Inductive AxiosResult :=
| Fulfilled (data : option Cwa.Data)
| RejectedWithResponse (status : Z) (data : option Cwa.ErrorBody)
| RejectedNoResponse.

Module Reply.

(* A message is a literal or a template literal with one hole. *)
Inductive Message :=
| Lit (s : jsstring)
| Template (before : jsstring) (hole : JsVal) (after : jsstring).

(* The JSON object given to res.json; None is a key that is not there. *)
Record Body := {
  success : bool;
  error : option jsstring;
  message : option Message;
  allowed : option (list jsstring);
  tip : option jsstring;
  data : option WeatherData;
  cached : option bool;
  details : option Cwa.ErrorBody
}.

Record Response := { status : Z; body : Body }.

Definition failure (st : Z) (err : string) (msg : Message) : Response :=
  {| status := st;
     body := {| success := false; error := Some (js err);
                message := Some msg; allowed := None; tip := None;
                data := None; cached := None; details := None |} |}.

(* res.json(...) without res.status(...) answers 200 *)
Definition ok (d : WeatherData) (c : option bool) : Response :=
  {| status := 200;
     body := {| success := true; error := None; message := None;
                allowed := None; tip := None; data := Some d;
                cached := c; details := None |} |}.

End Reply.

(* The state a request can see and change: the cache Map, and a log of
   the upstream calls made so far (the locationName of each, oldest
   first).  The log is not in the source; it records where axios.get is
   called. *)
Record World := {
  cache : gmap jsstring (CacheEntry WeatherData);
  upstreamCalls : list jsstring
}.

(* req.query.city || req.query.locationName || req.params.city
   || req.params.location || "高雄市" *)
Definition requestInput (req : Request) : jsstring :=
  orElse (query_city req)
    (orElse (query_locationName req)
       (orElse (params_city req)
          (orElse (params_location req) (js "高雄市")))).

Definition unsupportedLocation (locationName : JsVal) : Reply.Response :=
  {| Reply.status := 400;
     Reply.body :=
       {| Reply.success := false;
          Reply.error := Some (js "地區不支援");
          Reply.message :=
            Some (Reply.Template (js "不支援的地區：") locationName []);
          Reply.allowed := Some VALID_LOCATIONS;
          Reply.tip := Some (js "請使用 /api/locations 取得可用地區清單");
          Reply.data := None; Reply.cached := None;
          Reply.details := None |} |}.

Definition missingApiKey : Reply.Response :=
  Reply.failure 500 "伺服器設定錯誤"
    (Reply.Lit (js "請在 .env 檔案中設定 CWA_API_KEY")).

Definition missingLocation : Reply.Response :=
  Reply.failure 400 "參數錯誤"
    (Reply.Lit
       (js "請提供 city 或 locationName，例如 /api/weather?city=宜蘭縣")).

Definition notFound (locationName : jsstring) : Reply.Response :=
  Reply.failure 404 "查無資料"
    (Reply.Template (js "無法取得 ") (VStr locationName) (js " 天氣資料")).

Definition serverError : Reply.Response :=
  Reply.failure 500 "伺服器錯誤"
    (Reply.Lit (js "無法取得天氣資料，請稍後再試")).

Definition upstreamError (st : Z) (d : option Cwa.ErrorBody)
  : Reply.Response :=
  {| Reply.status := st;
     Reply.body :=
       {| Reply.success := false;
          Reply.error := Some (js "CWA API 錯誤");
          Reply.message :=
            Some (Reply.Lit (orElse (d ≫= Cwa.message)
                               (js "無法取得天氣資料")));
          Reply.allowed := None; Reply.tip := None;
          Reply.data := None; Reply.cached := None;
          Reply.details := d |} |}.

Section Handler.

(* process.env.CWA_API_KEY *)
Variable CWA_API_KEY : option jsstring.

(* The upstream: what the n-th axios.get of the process (n counted
   from 0) settles to when asked for locationName. *)
Variable axios_get : nat -> jsstring -> AxiosResult.

(* Lines 141-248 for a valid locationName.  tLookup and tStore are the
   readings of Date.now() inside getCache and setCache.  With a payload
   of the shape of Cwa.Data, axios.get is the one statement of the try
   block that can throw, so the catch block is reached from its two
   rejections. *)
Definition serveLocation (locationName : jsstring) (tLookup tStore : Z)
    (w : World) : Reply.Response * World :=
  match getCache (cache w) tLookup locationName with
  | (Some cached, c) =>
    (Reply.ok cached (Some true),
     {| cache := c; upstreamCalls := upstreamCalls w |})
  | (None, c) =>
    let called :=
      {| cache := c; upstreamCalls := upstreamCalls w ++ [locationName] |}
    in
    match axios_get (length (upstreamCalls w)) locationName with
    | Fulfilled d =>
      let records := d ≫= Cwa.records in
      match pickFirstLocation records with
      | None => (notFound locationName, called)
      | Some locationData =>
        let weatherData := buildWeatherData records locationData in
        (Reply.ok weatherData None,
         {| cache := setCache c tStore locationName weatherData;
            upstreamCalls := upstreamCalls called |})
      end
    | RejectedWithResponse st d => (upstreamError st d, called)
    | RejectedNoResponse => (serverError, called)
    end
  end.

Definition getWeatherByLocation (req : Request) (tLookup tStore : Z)
    (w : World) : Reply.Response * World :=
  if negb (truthy (VStr (default [] CWA_API_KEY))) then (missingApiKey, w)
  else
    let input := requestInput req in
    let locationName := normalizeLocation input in
    if negb (truthy locationName) then (missingLocation, w)
    else
      match locationName with
      | VStr name =>
        if isValidLocation locationName
        then serveLocation name tLookup tStore w
        else (unsupportedLocation locationName, w)
      | VProto _ => (unsupportedLocation locationName, w)
      end.

End Handler.


(* ===================================================================== *)
(* Vocabulary for the statements about the transformer                   *)
(* ===================================================================== *)

(* The content fields the switch of applyElement assigns. *)
Inductive Field := FWeather | FRain | FMinTemp | FMaxTemp | FComfort.

#[global] Instance Field_eq_dec : EqDecision Field.
Proof. solve_decision. Defined.

Definition getField (fld : Field) (f : Forecast) : jsstring :=
  match fld with
  | FWeather => weather f
  | FRain => rain f
  | FMinTemp => minTemp f
  | FMaxTemp => maxTemp f
  | FComfort => comfort f
  end.

(* The field the case for this element name assigns; None for the
   default case. *)
Definition fieldOf (elementName : option jsstring) : option Field :=
  match elementName with
  | None => None
  | Some n =>
    if decide (n = js "Wx") then Some FWeather
    else if decide (n = js "PoP") then Some FRain
    else if decide (n = js "PoP6h") then Some FRain
    else if decide (n = js "MinT") then Some FMinTemp
    else if decide (n = js "MaxT") then Some FMaxTemp
    else if decide (n = js "CI") then Some FComfort
    else None
  end.

(* What the case for the field fld stores, given the value read. *)
Definition tagged (fld : Field) (val : option jsstring) : jsstring :=
  match fld with
  | FWeather | FComfort => orElse val []
  | FRain => withUnit val (js "%")
  | FMinTemp | FMaxTemp => withUnit val (js "°C")
  end.

(* The block e is one whose case assigns the field fld. *)
Definition writes (e : Cwa.WeatherElement) (fld : Field) : Prop :=
  fieldOf (Cwa.elementName e) = Some fld.

(* The element name is one of the fixed set Wx, PoP, PoP6h, MinT, MaxT,
   CI. *)
Definition knownElement (e : Cwa.WeatherElement) : bool :=
  bool_decide (Cwa.elementName e ∈
                 map (fun n => Some (js n))
                   ["Wx"; "PoP"; "PoP6h"; "MinT"; "MaxT"; "CI"]%string).

(* No field holds a unit suffix on its own. *)
Definition noBareUnit (f : Forecast) : Prop :=
  rain f <> js "%" /\ minTemp f <> js "°C" /\ maxTemp f <> js "°C".

(* ===================================================================== *)
(* Sample data                                                           *)
(* ===================================================================== *)

Module Sample.

Local Open Scope string_scope.

Definition period (a b : string) (v : option string) : Cwa.TimeEntry :=
  {| Cwa.startTime := Some (js a); Cwa.endTime := Some (js b);
     Cwa.parameter :=
       Some {| Cwa.parameterName := (fun s => js s) <$> v |} |}.

Definition block (n : string) (ts : list Cwa.TimeEntry)
  : Cwa.WeatherElement :=
  {| Cwa.elementName := Some (js n); Cwa.time := Some ts |}.

Definition t0 : string := "2025-01-01 06:00:00".
Definition t1 : string := "2025-01-01 18:00:00".
Definition t2 : string := "2025-01-02 06:00:00".

Definition wx : Cwa.WeatherElement :=
  block "Wx" [period t0 t1 (Some "晴"); period t1 t2 (Some "多雲")].
Definition pop : Cwa.WeatherElement :=
  block "PoP" [period t0 t1 (Some "60"); period t1 t2 None].
Definition minT : Cwa.WeatherElement :=
  block "MinT" [period t0 t1 (Some "18")].
Definition maxT : Cwa.WeatherElement :=
  block "MaxT" [period t0 t1 (Some "25"); period t1 t2 (Some "27")].
Definition ci : Cwa.WeatherElement :=
  block "CI" [period t0 t1 (Some "舒適"); period t1 t2 (Some "舒適")].
Definition ws : Cwa.WeatherElement :=
  block "WS" [period t0 t1 (Some "3"); period t1 t2 (Some "4")].

Definition kaohsiung : Cwa.Location :=
  {| Cwa.locationName := Some (js "高雄市");
     Cwa.weatherElement := Some [wx; pop; ws; minT; maxT; ci] |}.

Definition records : Cwa.Records :=
  {| Cwa.datasetDescription := Some (js "三十六小時天氣預報");
     Cwa.location := Some [kaohsiung] |}.

Definition noDescription : Cwa.Records :=
  {| Cwa.datasetDescription := None; Cwa.location := Some [kaohsiung] |}.

Definition weatherData : WeatherData :=
  buildWeatherData (Some records) kaohsiung.

Definition request (city : string) : Request :=
  {| query_city := Some (js city); query_locationName := None;
     params_city := None; params_location := None |}.

Definition noInput : Request :=
  {| query_city := None; query_locationName := None;
     params_city := None; params_location := None |}.

Definition freshWorld : World := {| cache := ∅; upstreamCalls := [] |}.

Definition apiKey : option jsstring := Some (js "CWA-TEST-KEY").

Definition upstreamOk (n : nat) (name : jsstring) : AxiosResult :=
  Fulfilled (Some {| Cwa.records := Some records |}).

Definition upstreamDown (n : nat) (name : jsstring) : AxiosResult :=
  RejectedNoResponse.

(* An upstream whose reply has one Wx period and no other block. *)
Definition upstreamWxOnly (n : nat) (name : jsstring) : AxiosResult :=
  Fulfilled
    (Some {| Cwa.records :=
               Some {| Cwa.datasetDescription := None;
                       Cwa.location :=
                         Some [{| Cwa.locationName := Some name;
                                  Cwa.weatherElement :=
                                    Some [block "Wx"
                                            [period t0 t1 (Some "晴")]] |}]
                    |} |}).

Definition unauthorized : Cwa.ErrorBody :=
  {| Cwa.message := Some (js "Unauthorized");
     Cwa.rest := js "API key is not valid" |}.

Definition upstream401 (n : nat) (name : jsstring) : AxiosResult :=
  RejectedWithResponse 401 (Some unauthorized).

End Sample.

(* ===================================================================== *)
(* The other route handlers                                              *)
(* ===================================================================== *)

Module Locations.

(* One option of the location list: { name, value } *)
Record Entry := { name : jsstring; value : jsstring }.

End Locations.

(* The data of GET /api/locations:
   VALID_LOCATIONS.map((name) => ({ name, value: name })) *)
Definition apiLocations : list Locations.Entry :=
  (fun name => {| Locations.name := name; Locations.value := name |})
    <$> VALID_LOCATIONS.

(* The handler registered for /api/weather/kaohsiung:
   req.query.city = "高雄市"; return getWeatherByLocation(req, res); *)
Definition legacyKaohsiung (CWA_API_KEY : option jsstring)
    (axios_get : nat -> jsstring -> AxiosResult) (req : Request)
    (tLookup tStore : Z) (w : World) : Reply.Response * World :=
  getWeatherByLocation CWA_API_KEY axios_get
    {| query_city := Some (js "高雄市");
       query_locationName := query_locationName req;
       params_city := params_city req;
       params_location := params_location req |}
    tLookup tStore w.

(* ===================================================================== *)
(* Further vocabulary                                                    *)
(* ===================================================================== *)

(* The string has no white space at either end. *)
Definition trimmed (s : jsstring) : Prop := trim s = s.

(* What line 65 makes of the trimmed input. *)
Definition taiReplaced (raw : jsstring) : jsstring :=
  if startsWith raw (js "台") then js "臺" ++ slice1 raw else raw.

(* Every key of the cache is a canonical location name. *)
Definition canonicalKeys (c : gmap jsstring (CacheEntry WeatherData))
  : Prop :=
  forall k, is_Some (c !! k) -> k ∈ VALID_LOCATIONS.

(* The block with the entries of its time list from index n on dropped. *)
Definition truncateTimes (n : nat) (e : Cwa.WeatherElement)
  : Cwa.WeatherElement :=
  {| Cwa.elementName := Cwa.elementName e;
     Cwa.time := take n <$> Cwa.time e |}.

(* The field is empty or a non-empty value followed by the unit. *)
Definition emptyOrUnit (unit s : jsstring) : Prop :=
  s = [] \/ exists v, v <> [] /\ s = v ++ unit.

(* The three unit-tagged fields of a record have that form. *)
Definition unitShaped (f : Forecast) : Prop :=
  emptyOrUnit (js "%") (rain f)
  /\ emptyOrUnit (js "°C") (minTemp f)
  /\ emptyOrUnit (js "°C") (maxTemp f).

Module SampleMore.

(* An upstream that answers 2xx with a body that holds no records. *)
Definition upstreamEmpty (n : nat) (name : jsstring) : AxiosResult :=
  Fulfilled (Some {| Cwa.records := None |}).

(* The request GET /api/weather/kaohsiung as the path route sees it. *)
Definition pathKaohsiung : Request :=
  {| query_city := None; query_locationName := None;
     params_city := Some (js "kaohsiung"); params_location := None |}.

(* A payload in which PoP holds "60" for the first period and a later
   PoP6h block has no value for it. *)
Definition pop60 : Cwa.WeatherElement :=
  Sample.block "PoP" [Sample.period Sample.t0 Sample.t1 (Some "60"%string)].

Definition pop6hBlank : Cwa.WeatherElement :=
  Sample.block "PoP6h" [Sample.period Sample.t0 Sample.t1 None].

Definition popThenPop6h : Cwa.Location :=
  {| Cwa.locationName := Some (js "高雄市");
     Cwa.weatherElement := Some [Sample.wx; pop60; pop6hBlank] |}.



End SampleMore.

(* ===================================================================== *)
(* The states of a running process                                       *)
(* ===================================================================== *)



(* ===================================================================== *)
(* Properties of the location resolver                                   *)
(* ===================================================================== *)

Example js_tai : js "台" = [21488%N] /\ js "臺" = [33274%N].
Proof. split; reflexivity. Qed.

Example normalize_taipei :
  normalizeLocation (js "台北市") = VStr (js "臺北市")
  /\ normalizeLocation (js " taipei ") = VStr (js "臺北市")
  /\ normalizeLocation (js "constructor") = VProto (js "constructor").
Proof. repeat split; vm_compute; reflexivity. Qed.

Lemma aliasHit_miss (k : jsstring) :
  ownProperty LOCATION_ALIASES k = None ->
  aliasHit k = None \/ aliasHit k = Some (VProto k).
Proof.
  intros Hown. unfold aliasHit, aliasGet. rewrite Hown.
  destruct (decide (k ∈ OBJECT_PROTOTYPE_KEYS)); [right | left]; reflexivity.
Qed.

Lemma isValidLocation_false_iff (s : jsstring) :
  isValidLocation (VStr s) = false <-> s ∉ VALID_LOCATIONS.
Proof.
  unfold isValidLocation. rewrite bool_decide_eq_false. reflexivity.
Qed.

(** C3: every alias key normalizes to the canonical name it is mapped to
    (and that name is one of the 22), every canonical name normalizes to
    itself, and both spellings of Taipei normalize to "臺北市". *)
Theorem normalizeLocation_alias_canonical :
  Forall (fun kv => normalizeLocation kv.1 = VStr kv.2
                    /\ kv.2 ∈ VALID_LOCATIONS) LOCATION_ALIASES
  /\ Forall (fun c => normalizeLocation c = VStr c) VALID_LOCATIONS
  /\ normalizeLocation (js "台北市") = VStr (js "臺北市")
  /\ normalizeLocation (js "臺北市") = VStr (js "臺北市")
  /\ length VALID_LOCATIONS = 22%nat.
Proof.
  split; [| split; [| split; [| split]]].
  - apply Forall_forall. intros kv Hin.
    repeat (apply elem_of_cons in Hin as [-> | Hin];
            [split; [vm_compute; reflexivity | compute_done] |]).
    inversion Hin.
  - apply Forall_forall. intros c Hin.
    repeat (apply elem_of_cons in Hin as [-> | Hin];
            [vm_compute; reflexivity |]).
    inversion Hin.
  - vm_compute; reflexivity.
  - vm_compute; reflexivity.
  - vm_compute; reflexivity.
Qed.

(** C1, as stated, fails on the input " 臺北市" (a leading space): it is not
    an alias key, does not start with "台" and is not one of the canonical
    names, yet normalizeLocation trims it to the canonical "臺北市", which
    isValidLocation accepts. *)
Lemma normalizeLocation_untrimmed_accepted :
  ownProperty LOCATION_ALIASES (js " 臺北市") = None
  /\ startsWith (js " 臺北市") (js "台") = false
  /\ (js " 臺北市" ∉ VALID_LOCATIONS)
  /\ normalizeLocation (js " 臺北市") = VStr (js "臺北市")
  /\ isValidLocation (normalizeLocation (js " 臺北市")) = true.
Proof.
  split; [vm_compute; reflexivity |]. split; [vm_compute; reflexivity |].
  split; [compute_done |]. split; vm_compute; reflexivity.
Qed.

(** C1, amended: when the input with surrounding whitespace removed is not
    an alias key, does not start with "台" and is not canonical, the
    normalized input is rejected by isValidLocation. *)
Theorem normalizeLocation_rejects_unknown (input : jsstring) :
  ownProperty LOCATION_ALIASES (trim input) = None ->
  startsWith (trim input) (js "台") = false ->
  trim input ∉ VALID_LOCATIONS ->
  isValidLocation (normalizeLocation input) = false.
Proof.
  intros Hown Hstart Hcanon. unfold normalizeLocation.
  destruct input as [| c input]; [compute_done |].
  cbn [truthy negb]. rewrite Hstart.
  destruct (aliasHit_miss _ Hown) as [-> | ->]; [| reflexivity].
  by apply isValidLocation_false_iff.
Qed.

Lemma normalizeLocation_rejects_unknown_witness :
  ownProperty LOCATION_ALIASES (trim (js " 火星 ")) = None
  /\ startsWith (trim (js " 火星 ")) (js "台") = false
  /\ (trim (js " 火星 ") ∉ VALID_LOCATIONS)
  /\ isValidLocation (normalizeLocation (js " 火星 ")) = false.
Proof.
  assert (Hown : ownProperty LOCATION_ALIASES (trim (js " 火星 ")) = None)
    by (vm_compute; reflexivity).
  assert (Hstart : startsWith (trim (js " 火星 ")) (js "台") = false)
    by (vm_compute; reflexivity).
  assert (Hcanon : trim (js " 火星 ") ∉ VALID_LOCATIONS) by compute_done.
  split; [exact Hown |]. split; [exact Hstart |]. split; [exact Hcanon |].
  exact (normalizeLocation_rejects_unknown (js " 火星 ") Hown Hstart Hcanon).
Defined.

(* ===================================================================== *)
(* Properties of the cache                                               *)
(* ===================================================================== *)

Section CacheFacts.
Context {V : Type}.
Implicit Types (c : gmap jsstring (CacheEntry V)) (k : jsstring) (v : V).

Lemma getCache_fresh c k v (t0 t1 : Z) :
  t1 <= t0 + CACHE_TTL_MS ->
  getCache (setCache c t0 k v) t1 k = (Some v, setCache c t0 k v).
Proof.
  intros Hle. unfold getCache, setCache. rewrite lookup_insert_eq.
  cbn [expires data]. rewrite Z.gtb_ltb.
  destruct (Z.ltb_spec (t0 + CACHE_TTL_MS) t1); [lia | reflexivity].
Qed.

Lemma getCache_stale c k v (t0 t1 : Z) :
  t0 + CACHE_TTL_MS < t1 ->
  getCache (setCache c t0 k v) t1 k = (None, delete k c).
Proof.
  intros Hlt. unfold getCache, setCache. rewrite lookup_insert_eq.
  cbn [expires data]. rewrite Z.gtb_ltb.
  destruct (Z.ltb_spec (t0 + CACHE_TTL_MS) t1); [| lia].
  by rewrite delete_insert_eq.
Qed.

Lemma getCache_absent c k (t : Z) :
  c !! k = None -> getCache c t k = (None, c).
Proof. intros H. unfold getCache. by rewrite H. Qed.

Lemma getCache_Some c k v (t : Z) :
  (getCache c t k).1 = Some v ->
  exists e, c !! k = Some e /\ data e = v /\ t <= expires e
            /\ (getCache c t k).2 = c.
Proof.
  unfold getCache. destruct (c !! k) as [e |]; [| discriminate].
  rewrite Z.gtb_ltb. destruct (Z.ltb_spec (expires e) t); [discriminate |].
  cbn. intros [= <-]. exists e. repeat split; first [done | lia].
Qed.

End CacheFacts.

(** C6: a value stored by setCache is returned unchanged by a getCache for
    the same key no later than 3 minutes after the store, and that lookup
    leaves the Map as it was; a lookup later than that returns nothing and
    leaves the Map without any entry for the key, so that later lookups
    find nothing and a later store and lookup see only the new value; and
    whenever getCache returns a value, it is the stored one and the clock
    has not passed the entry's expiry. *)
Theorem cache_roundtrip_and_expiry
    (V : Type) (c : gmap jsstring (CacheEntry V)) (k : jsstring) (v : V)
    (t0 t1 : Z) :
  CACHE_TTL_MS = 180000
  /\ (t1 <= t0 + CACHE_TTL_MS ->
      getCache (setCache c t0 k v) t1 k = (Some v, setCache c t0 k v))
  /\ (t0 + CACHE_TTL_MS < t1 ->
      getCache (setCache c t0 k v) t1 k = (None, delete k c)
      /\ (forall t2, getCache (delete k c) t2 k = (None, delete k c))
      /\ (forall (v' : V) (t2 t3 : Z), t3 <= t2 + CACHE_TTL_MS ->
            (getCache (setCache (delete k c) t2 k v') t3 k).1 = Some v'))
  /\ (forall v', (getCache c t1 k).1 = Some v' ->
        exists e, c !! k = Some e /\ data e = v' /\ t1 <= expires e).
Proof.
  split; [reflexivity |]. split; [apply getCache_fresh |]. split.
  - intros Hlt. split; [by apply getCache_stale |]. split.
    + intros t2. apply getCache_absent, lookup_delete_eq.
    + intros v' t2 t3 Hle. by rewrite getCache_fresh.
  - intros v' Hget. destruct (getCache_Some _ _ _ _ Hget) as (e & ? & ? & ? & _).
    by exists e.
Qed.

Lemma cache_roundtrip_and_expiry_witness :
  let c := setCache ∅ 1000 (js "高雄市") Sample.weatherData in
  181000 <= 1000 + CACHE_TTL_MS
  /\ getCache c 181000 (js "高雄市") = (Some Sample.weatherData, c)
  /\ 1000 + CACHE_TTL_MS < 181001
  /\ getCache c 181001 (js "高雄市") = (None, delete (js "高雄市") ∅).
Proof.
  destruct (cache_roundtrip_and_expiry WeatherData ∅ (js "高雄市")
              Sample.weatherData 1000 181000) as (_ & Hfresh & _).
  destruct (cache_roundtrip_and_expiry WeatherData ∅ (js "高雄市")
              Sample.weatherData 1000 181001) as (_ & _ & Hstale & _).
  split; [unfold CACHE_TTL_MS; lia |].
  split; [apply Hfresh; unfold CACHE_TTL_MS; lia |].
  split; [unfold CACHE_TTL_MS; lia |].
  apply Hstale. unfold CACHE_TTL_MS. lia.
Defined.

(* ===================================================================== *)
(* Properties of the forecast transformer                                *)
(* ===================================================================== *)

Ltac switch_cases :=
  unfold writes, applyElement, fieldOf;
  match goal with
  | |- context [Cwa.elementName ?e] => destruct (Cwa.elementName e) as [? |]
  end;
  repeat case_decide.

Section TransformerFacts.
Implicit Types (f : Forecast) (e : Cwa.WeatherElement) (i : nat)
  (els pre post : list Cwa.WeatherElement) (fld : Field).

Lemma applyElement_frame i f e :
  startTime (applyElement i f e) = startTime f
  /\ endTime (applyElement i f e) = endTime f
  /\ windSpeed (applyElement i f e) = windSpeed f.
Proof. switch_cases; repeat split. Qed.

Lemma applyElement_writes i f e fld :
  writes e fld -> getField fld (applyElement i f e) = tagged fld (valueAt e i).
Proof.
  switch_cases; intros Hw; try discriminate; by injection Hw as <-.
Qed.

Lemma applyElement_other i f e fld :
  ~ writes e fld -> getField fld (applyElement i f e) = getField fld f.
Proof.
  switch_cases; intros Hw; try reflexivity;
    destruct fld; try reflexivity; by destruct Hw.
Qed.

Lemma applyElement_default i f e :
  knownElement e = false -> applyElement i f e = f.
Proof.
  unfold knownElement. rewrite bool_decide_eq_false.
  switch_cases; intros Hk; try reflexivity; subst; destruct Hk;
    compute_done.
Qed.

Lemma fold_frame i els f :
  let f' := fold_left (applyElement i) els f in
  startTime f' = startTime f /\ endTime f' = endTime f
  /\ windSpeed f' = windSpeed f.
Proof.
  revert f. induction els as [| e els IH]; intros f; [done |].
  cbn [fold_left]. destruct (IH (applyElement i f e)) as (-> & -> & ->).
  apply applyElement_frame.
Qed.

Lemma fold_no_writer i els f fld :
  Forall (fun e => ~ writes e fld) els ->
  getField fld (fold_left (applyElement i) els f) = getField fld f.
Proof.
  intros H. revert f. induction H as [| e els He _ IH]; intros f; [done |].
  cbn [fold_left]. rewrite IH. by apply applyElement_other.
Qed.

Lemma fold_last_writer i pre e post f fld :
  writes e fld ->
  Forall (fun e' => ~ writes e' fld) post ->
  getField fld (fold_left (applyElement i) (pre ++ e :: post) f)
  = tagged fld (valueAt e i).
Proof.
  intros He Hpost. rewrite fold_left_app. cbn [fold_left].
  rewrite fold_no_writer by done. by apply applyElement_writes.
Qed.

Lemma fold_known i els f :
  fold_left (applyElement i) els f
  = fold_left (applyElement i) (List.filter knownElement els) f.
Proof.
  revert f. induction els as [| e els IH]; intros f; [done |].
  cbn [fold_left List.filter]. destruct (knownElement e) eqn:Hk.
  - cbn [fold_left]. apply IH.
  - rewrite (applyElement_default _ _ _ Hk). apply IH.
Qed.

Lemma forecasts_lookup records (loc : Cwa.Location) i f :
  forecasts (buildWeatherData records loc) !! i = Some f ->
  (i < length (baseTimesOf (weatherElementsOf loc)))%nat
  /\ f = forecastAt (baseTimesOf (weatherElementsOf loc))
           (weatherElementsOf loc) i.
Proof.
  unfold buildWeatherData. cbn [forecasts]. rewrite list_lookup_fmap.
  intros H. apply fmap_Some in H as (j & Hj & ->).
  apply lookup_seq in Hj as [-> Hlt]. done.
Qed.





Lemma withUnit_not_bare (val : option jsstring) (u : jsstring) :
  u <> [] -> withUnit val u <> u.
Proof.
  intros Hu. destruct val as [[| c s] |]; cbn [withUnit]; try congruence.
  intros Heq. apply (f_equal length) in Heq.
  rewrite length_app in Heq. cbn [length] in Heq. lia.
Qed.

Lemma applyElement_noBareUnit i f e :
  noBareUnit f -> noBareUnit (applyElement i f e).
Proof.
  assert (Hp : forall val, withUnit val (js "%") <> js "%")
    by (intros val; by apply withUnit_not_bare).
  assert (Hc : forall val, withUnit val (js "°C") <> js "°C")
    by (intros val; by apply withUnit_not_bare).
  unfold noBareUnit. switch_cases; intros (Hr & Hmin & Hmax);
    (split; [| split]);
    cbn [rain minTemp maxTemp set_weather set_rain set_minTemp
         set_maxTemp set_comfort];
    first [assumption | apply Hp | apply Hc].
Qed.

Lemma forecastAt_noBareUnit (bt : list Cwa.TimeEntry) els i :
  noBareUnit (forecastAt bt els i).
Proof.
  unfold forecastAt.
  assert (H0 : noBareUnit (newForecast bt i)) by (by repeat split).
  revert H0. generalize (newForecast bt i).
  induction els as [| e els IH]; intros f Hf; [done |].
  cbn [fold_left]. by apply IH, applyElement_noBareUnit.
Qed.

End TransformerFacts.

(** C4, as stated, fails on a payload with the blocks Wx, PoP and PoP6h in
    this order, where PoP holds "60" for the first period and PoP6h holds
    no value for it: the blocks are applied in order and both assign
    rain, so the first record has rain "" and not "60%". *)
Lemma later_block_overwrites_rain :
  exists f,
    forecasts (buildWeatherData None SampleMore.popThenPop6h) !! 0%nat
    = Some f
    /\ weatherElementsOf SampleMore.popThenPop6h
       = [Sample.wx; SampleMore.pop60; SampleMore.pop6hBlank]
    /\ named SampleMore.pop60 "PoP"
    /\ valueAt SampleMore.pop60 0 = Some (js "60")
    /\ rain f = []
    /\ rain f <> js "60%".
Proof.
  eexists. split; [vm_compute; reflexivity |].
  split; [reflexivity |]. split; [reflexivity |].
  split; [vm_compute; reflexivity |]. split; [reflexivity |].
  vm_compute. discriminate.
Qed.

(** C4, amended: for every period index i, the switch stores in the field
    of the block's kind the value read at i with its unit (tagged),
    whatever the record in progress, and leaves the record as it is for a
    name outside the fixed set; the blocks are applied in order, so a
    later block assigning the same field overwrites an earlier one.  In
    the record f the transformer emits for period i,
    take a block e that is the last one assigning its field: if e is PoP
    or PoP6h, rain is the value followed by "%" ("60" gives "60%"); if e
    is MinT or MaxT, the field is the value followed by "°C"; if e is Wx
    or CI, the value is copied as it is; and when the value is missing or
    empty the field is the empty string.  No record ever holds "%" or
    "°C" alone, and the record is the one obtained from the blocks with a
    name of the fixed set only, on the same timeline. *)
Theorem transformer_unit_tagging
    (records : option Cwa.Records) (locationData : Cwa.Location)
    (i : nat) (f : Forecast) :
  forecasts (buildWeatherData records locationData) !! i = Some f ->
  let els := weatherElementsOf locationData in
  (forall g e fld, writes e fld ->
     getField fld (applyElement i g e) = tagged fld (valueAt e i))
  /\ (forall g e, knownElement e = false -> applyElement i g e = g)
  /\ (forall pre e post, els = pre ++ e :: post ->
     let val := valueAt e i in
     let missing := val = None \/ val = Some [] in
     (named e "PoP" \/ named e "PoP6h" ->
      Forall (fun e' => ~ writes e' FRain) post ->
      (val = Some (js "60") -> rain f = js "60%")
      /\ (forall v, val = Some v -> v <> [] -> rain f = v ++ js "%")
      /\ (missing -> rain f = []))
     /\ (named e "MinT" ->
         Forall (fun e' => ~ writes e' FMinTemp) post ->
         (forall v, val = Some v -> v <> [] -> minTemp f = v ++ js "°C")
         /\ (missing -> minTemp f = []))
     /\ (named e "MaxT" ->
         Forall (fun e' => ~ writes e' FMaxTemp) post ->
         (forall v, val = Some v -> v <> [] -> maxTemp f = v ++ js "°C")
         /\ (missing -> maxTemp f = []))
     /\ (named e "Wx" ->
         Forall (fun e' => ~ writes e' FWeather) post ->
         (forall v, val = Some v -> weather f = v)
         /\ (missing -> weather f = []))
     /\ (named e "CI" ->
         Forall (fun e' => ~ writes e' FComfort) post ->
         (forall v, val = Some v -> comfort f = v)
         /\ (missing -> comfort f = [])))
  /\ (rain f <> js "%" /\ minTemp f <> js "°C" /\ maxTemp f <> js "°C")
  /\ f = forecastAt (baseTimesOf els) (List.filter knownElement els) i.
Proof.
  intros Hf els. apply forecasts_lookup in Hf as [_ Hf]. fold els in Hf.
  split; [intros g e fld; apply applyElement_writes |].
  split; [intros g e; apply applyElement_default |].
  split; [| split].
  - intros pre e post Hels val missing.
    assert (Hlast : forall fld n, named e n ->
              fieldOf (Some (js n)) = Some fld ->
              Forall (fun e' => ~ writes e' fld) post ->
              getField fld f = tagged fld val).
    { intros fld n Hn Hfld Hpost. rewrite Hf, Hels. unfold forecastAt.
      apply fold_last_writer; [| done]. unfold writes. by rewrite Hn. }
    assert (Hunit : forall u v, v <> [] -> withUnit (Some v) u = v ++ u)
      by (intros u [| c s] Hv; done).
    assert (Hplain : forall v, orElse (Some v) [] = v)
      by (intros [| c s]; done).
    assert (Hnone : forall u, missing -> withUnit val u = []
                                         /\ orElse val [] = [])
      by (intros u [-> | ->]; done).
    split; [| split; [| split; [| split]]].
    + intros Hn Hpost.
      assert (Hrain : rain f = withUnit val (js "%")).
      { destruct Hn as [Hn | Hn];
          [apply (Hlast FRain "PoP"%string) | apply (Hlast FRain "PoP6h"%string)];
          first [assumption | vm_compute; reflexivity]. }
      rewrite Hrain. split; [| split].
      * intros ->. vm_compute; reflexivity.
      * intros v -> Hne. by apply Hunit.
      * intros Hm. by apply Hnone.
    + intros Hn Hpost.
      assert (Hmin : minTemp f = withUnit val (js "°C")).
      { apply (Hlast FMinTemp "MinT"%string);
          first [assumption | vm_compute; reflexivity]. }
      rewrite Hmin. split.
      * intros v -> Hne. by apply Hunit.
      * intros Hm. by apply Hnone.
    + intros Hn Hpost.
      assert (Hmax : maxTemp f = withUnit val (js "°C")).
      { apply (Hlast FMaxTemp "MaxT"%string);
          first [assumption | vm_compute; reflexivity]. }
      rewrite Hmax. split.
      * intros v -> Hne. by apply Hunit.
      * intros Hm. by apply Hnone.
    + intros Hn Hpost.
      assert (Hwx : weather f = orElse val []).
      { apply (Hlast FWeather "Wx"%string);
          first [assumption | vm_compute; reflexivity]. }
      rewrite Hwx. split.
      * intros v ->. apply Hplain.
      * intros Hm. by apply (Hnone []).
    + intros Hn Hpost.
      assert (Hci : comfort f = orElse val []).
      { apply (Hlast FComfort "CI"%string);
          first [assumption | vm_compute; reflexivity]. }
      rewrite Hci. split.
      * intros v ->. apply Hplain.
      * intros Hm. by apply (Hnone []).
  - rewrite Hf. apply forecastAt_noBareUnit.
  - rewrite Hf. unfold forecastAt. apply fold_known.
Qed.

Ltac no_later_writer :=
  repeat (constructor; [vm_compute; discriminate |]); constructor.

Lemma transformer_unit_tagging_witness :
  exists f,
    forecasts (buildWeatherData (Some Sample.records) Sample.kaohsiung)
      !! 0%nat = Some f
    /\ rain f = js "60%" /\ minTemp f = js "18°C" /\ weather f = js "晴".
Proof.
  eexists. split; [vm_compute; reflexivity |].
  destruct (transformer_unit_tagging (Some Sample.records) Sample.kaohsiung
              0 _ eq_refl) as (_ & _ & Hlast & _).
  split; [| split].
  - destruct (Hlast [Sample.wx] Sample.pop
                [Sample.ws; Sample.minT; Sample.maxT; Sample.ci] eq_refl)
      as (Hpop & _).
    destruct Hpop as (H60 & _); [left; reflexivity | no_later_writer |].
    apply H60. reflexivity.
  - destruct (Hlast [Sample.wx; Sample.pop; Sample.ws] Sample.minT
                [Sample.maxT; Sample.ci] eq_refl)
      as (_ & Hmin & _).
    destruct Hmin as (Hv & _); [reflexivity | no_later_writer |].
    apply (Hv (js "18")); [reflexivity | discriminate].
  - destruct (Hlast [] Sample.wx
                [Sample.pop; Sample.ws; Sample.minT; Sample.maxT; Sample.ci]
                eq_refl)
      as (_ & _ & _ & Hwx & _).
    destruct Hwx as (Hv & _); [reflexivity | no_later_writer |].
    apply (Hv (js "晴")). reflexivity.
Defined.



(** C9: every record the transformer emits, whatever the payload, has a
    windSpeed field and it holds the empty string. *)
Theorem windSpeed_always_empty
    (records : option Cwa.Records) (locationData : Cwa.Location) :
  Forall (fun f => windSpeed f = [])
    (forecasts (buildWeatherData records locationData)).
Proof.
  apply Forall_lookup. intros i f Hf.
  apply forecasts_lookup in Hf as [_ ->]. unfold forecastAt.
  destruct (fold_frame i (weatherElementsOf locationData)
              (newForecast (baseTimesOf (weatherElementsOf locationData)) i))
    as (_ & _ & ->).
  reflexivity.
Qed.

(* ===================================================================== *)
(* Properties of the request handler                                     *)
(* ===================================================================== *)

Section HandlerFacts.
Variable key : option jsstring.
Variable axios : nat -> jsstring -> AxiosResult.
Implicit Types (req : Request) (w : World) (name : jsstring).

Lemma handler_nokey req (tL tS : Z) w :
  truthy (VStr (default [] key)) = false ->
  getWeatherByLocation key axios req tL tS w = (missingApiKey, w).
Proof. intros Hkey. unfold getWeatherByLocation. by rewrite Hkey. Qed.

Lemma handler_invalid req (tL tS : Z) w :
  truthy (VStr (default [] key)) = true ->
  isValidLocation (normalizeLocation (requestInput req)) = false ->
  getWeatherByLocation key axios req tL tS w
  = (if truthy (normalizeLocation (requestInput req))
     then unsupportedLocation (normalizeLocation (requestInput req))
     else missingLocation, w).
Proof.
  intros Hkey Hinv. unfold getWeatherByLocation. rewrite Hkey. cbn [negb].
  destruct (normalizeLocation (requestInput req)) as [name | p].
  - rewrite Hinv. by destruct (truthy (VStr name)).
  - reflexivity.
Qed.

Lemma handler_valid req (tL tS : Z) w name :
  truthy (VStr (default [] key)) = true ->
  normalizeLocation (requestInput req) = VStr name ->
  isValidLocation (VStr name) = true ->
  getWeatherByLocation key axios req tL tS w
  = serveLocation axios name tL tS w.
Proof.
  intros Hkey Hname Hvalid. unfold getWeatherByLocation.
  rewrite Hkey, Hname, Hvalid. cbn [negb].
  destruct name as [| c s]; [vm_compute in Hvalid; discriminate |].
  reflexivity.
Qed.


Lemma serveLocation_miss name (tL tS : Z) w :
  (getCache (cache w) tL name).1 = None ->
  let called :=
    {| cache := (getCache (cache w) tL name).2;
       upstreamCalls := upstreamCalls w ++ [name] |} in
  serveLocation axios name tL tS w
  = match axios (length (upstreamCalls w)) name with
    | Fulfilled d =>
      match pickFirstLocation (d ≫= Cwa.records) with
      | None => (notFound name, called)
      | Some loc =>
        (Reply.ok (buildWeatherData (d ≫= Cwa.records) loc) None,
         {| cache := setCache (cache called) tS name
                       (buildWeatherData (d ≫= Cwa.records) loc);
            upstreamCalls := upstreamCalls called |})
      end
    | RejectedWithResponse st d => (upstreamError st d, called)
    | RejectedNoResponse => (serverError, called)
    end.
Proof.
  unfold serveLocation.
  destruct (getCache (cache w) tL name) as [[v |] c]; [discriminate |].
  reflexivity.
Qed.

Lemma serveLocation_hit name (tL tS : Z) w (d : WeatherData) :
  (getCache (cache w) tL name).1 = Some d ->
  serveLocation axios name tL tS w = (Reply.ok d (Some true), w).
Proof.
  intros Hget. destruct (getCache_Some _ _ _ _ Hget) as (e & _ & _ & _ & Hc).
  unfold serveLocation.
  destruct (getCache (cache w) tL name) as [[v |] c]; [| discriminate].
  cbn in Hget, Hc. injection Hget as ->. subst c. by destruct w.
Qed.

End HandlerFacts.




(** C7: when the request reaches the upstream and axios.get rejects, the
    handler answers with the upstream's status when the error carries a
    reply, with the upstream body as details and its message (the fixed
    text when it has none), and with 500 when the error carries no reply
    (network failure, timeout); the handler returns in both cases, having
    called the upstream once and stored nothing. *)
Theorem upstream_failure_reply
    (key : option jsstring) (axios : nat -> jsstring -> AxiosResult)
    (req : Request) (tL tS : Z) (w : World) (name : jsstring) :
  truthy (VStr (default [] key)) = true ->
  normalizeLocation (requestInput req) = VStr name ->
  isValidLocation (VStr name) = true ->
  (getCache (cache w) tL name).1 = None ->
  let out := getWeatherByLocation key axios req tL tS w in
  let result := axios (length (upstreamCalls w)) name in
  (forall st d, result = RejectedWithResponse st d ->
     Reply.status out.1 = st
     /\ Reply.success (Reply.body out.1) = false
     /\ Reply.details (Reply.body out.1) = d
     /\ Reply.message (Reply.body out.1)
        = Some (Reply.Lit (orElse (d ≫= Cwa.message)
                             (js "無法取得天氣資料")))
     /\ (forall b m, d = Some b -> Cwa.message b = Some m -> m <> [] ->
           Reply.message (Reply.body out.1) = Some (Reply.Lit m)))
  /\ (result = RejectedNoResponse ->
      Reply.status out.1 = 500
      /\ Reply.success (Reply.body out.1) = false
      /\ Reply.details (Reply.body out.1) = None)
  /\ ((forall d, result <> Fulfilled d) ->
      upstreamCalls out.2 = upstreamCalls w ++ [name]
      /\ cache out.2 = (getCache (cache w) tL name).2).
Proof.
  intros Hkey Hname Hvalid Hmiss. cbv zeta.
  rewrite (handler_valid _ _ _ _ _ _ _ Hkey Hname Hvalid).
  rewrite (serveLocation_miss _ _ _ _ _ Hmiss). cbv zeta.
  destruct (axios (length (upstreamCalls w)) name) as [d | st d |];
    split_and!; try discriminate.
  - intros Hnot. by destruct (Hnot d).
  - intros st' d' [= <- <-]. cbn [fst]. split_and!; try reflexivity.
    intros b m -> Hm Hne. cbn [upstreamError Reply.body Reply.message].
    cbn [mbind option_bind]. rewrite Hm. by destruct m.
  - intros _. by split.
  - intros _. by split_and!.
  - intros _. by split.
Qed.

Lemma upstream_failure_reply_witness :
  let out :=
    getWeatherByLocation Sample.apiKey Sample.upstream401
      (Sample.request "taipei") 0 0 Sample.freshWorld in
  truthy (VStr (default [] Sample.apiKey)) = true
  /\ normalizeLocation (requestInput (Sample.request "taipei"))
     = VStr (js "臺北市")
  /\ isValidLocation (VStr (js "臺北市")) = true
  /\ (getCache (cache Sample.freshWorld) 0 (js "臺北市")).1 = None
  /\ Reply.status out.1 = 401
  /\ Reply.details (Reply.body out.1) = Some Sample.unauthorized
  /\ upstreamCalls out.2 = [js "臺北市"].
Proof.
  cbv zeta. split; [vm_compute; reflexivity |].
  split; [vm_compute; reflexivity |]. split; [vm_compute; reflexivity |].
  split; [reflexivity |].
  destruct (upstream_failure_reply Sample.apiKey Sample.upstream401
              (Sample.request "taipei") 0 0 Sample.freshWorld (js "臺北市"))
    as (Hreply & _ & Hcalls);
    [vm_compute; reflexivity | vm_compute; reflexivity
     | vm_compute; reflexivity | reflexivity |].
  destruct (Hreply 401 (Some Sample.unauthorized) eq_refl)
    as (Hstatus & _ & Hdetails & _).
  destruct Hcalls as [Hcalls _]; [discriminate |].
  split; [exact Hstatus |]. split; [exact Hdetails | exact Hcalls].
Defined.

(** C8: a request with no city and no locationName query parameter and no
    path parameter is handled with "高雄市" as its input: that is the input
    read from the request, it normalizes to itself and is a valid
    location, and the handler does exactly what it does for a request
    with city=高雄市.  With the API key configured the handler serves the
    location "高雄市": it answers from the cache entry of "高雄市" when
    the lookup finds one, and otherwise calls the upstream once, for
    "高雄市". *)
Theorem default_input_kaohsiung
    (key : option jsstring) (axios : nat -> jsstring -> AxiosResult)
    (req : Request) (tL tS : Z) (w : World) :
  query_city req = None ->
  query_locationName req = None ->
  params_city req = None ->
  params_location req = None ->
  let out := getWeatherByLocation key axios req tL tS w in
  requestInput req = js "高雄市"
  /\ normalizeLocation (requestInput req) = VStr (js "高雄市")
  /\ isValidLocation (normalizeLocation (requestInput req)) = true
  /\ out
     = getWeatherByLocation key axios
         {| query_city := Some (js "高雄市"); query_locationName := None;
            params_city := None; params_location := None |} tL tS w
  /\ (truthy (VStr (default [] key)) = true ->
      out = serveLocation axios (js "高雄市") tL tS w
      /\ (forall d, (getCache (cache w) tL (js "高雄市")).1 = Some d ->
             out = (Reply.ok d (Some true), w))
      /\ ((getCache (cache w) tL (js "高雄市")).1 = None ->
          upstreamCalls out.2 = upstreamCalls w ++ [js "高雄市"])).
Proof.
  intros Hc Hl Hpc Hpl. cbv zeta.
  assert (Hinput : requestInput req = js "高雄市").
  { unfold requestInput. rewrite Hc, Hl, Hpc, Hpl. reflexivity. }
  assert (Hnorm : normalizeLocation (requestInput req) = VStr (js "高雄市"))
    by (rewrite Hinput; vm_compute; reflexivity).
  assert (Hvalid : isValidLocation (VStr (js "高雄市")) = true)
    by (vm_compute; reflexivity).
  split; [exact Hinput |]. split; [exact Hnorm |].
  split; [by rewrite Hnorm |]. split.
  - unfold getWeatherByLocation. rewrite Hinput.
    replace (requestInput _) with (js "高雄市") by (vm_compute; reflexivity).
    reflexivity.
  - intros Hkey.
    rewrite (handler_valid key axios req tL tS w _ Hkey Hnorm Hvalid).
    split; [reflexivity |]. split.
    + intros d Hhit. by apply serveLocation_hit.
    + intros Hmiss. rewrite (serveLocation_miss _ _ _ _ _ Hmiss). cbv zeta.
      destruct (axios (length (upstreamCalls w)) (js "高雄市"))
        as [d | st b |]; [| reflexivity | reflexivity].
      by destruct (pickFirstLocation (d ≫= Cwa.records)).
Qed.

Lemma default_input_kaohsiung_witness :
  let out :=
    getWeatherByLocation Sample.apiKey Sample.upstreamOk Sample.noInput
      0 0 Sample.freshWorld in
  query_city Sample.noInput = None
  /\ query_locationName Sample.noInput = None
  /\ params_city Sample.noInput = None
  /\ params_location Sample.noInput = None
  /\ truthy (VStr (default [] Sample.apiKey)) = true
  /\ (getCache (cache Sample.freshWorld) 0 (js "高雄市")).1 = None
  /\ requestInput Sample.noInput = js "高雄市"
  /\ out = serveLocation Sample.upstreamOk (js "高雄市") 0 0
             Sample.freshWorld
  /\ upstreamCalls out.2 = [js "高雄市"].
Proof.
  cbv zeta. do 4 (split; [reflexivity |]).
  assert (Hkey : truthy (VStr (default [] Sample.apiKey)) = true)
    by (vm_compute; reflexivity).
  assert (Hmiss : (getCache (cache Sample.freshWorld) 0 (js "高雄市")).1
                  = None) by reflexivity.
  split; [exact Hkey |]. split; [exact Hmiss |].
  destruct (default_input_kaohsiung Sample.apiKey Sample.upstreamOk
              Sample.noInput 0 0 Sample.freshWorld eq_refl eq_refl eq_refl
              eq_refl) as (Hinput & _ & _ & _ & Hserve).
  destruct (Hserve Hkey) as (Hout & _ & Hcalls).
  split; [exact Hinput |]. split; [exact Hout |]. exact (Hcalls Hmiss).
Defined.

(* ===================================================================== *)
(* The end-to-end scenarios of the specification, run on the model       *)
(* ===================================================================== *)

Example scenario_taipei_wx_only :
  let out :=
    getWeatherByLocation Sample.apiKey Sample.upstreamWxOnly
      (Sample.request "taipei") 0 0 Sample.freshWorld in
  Reply.status out.1 = 200
  /\ Reply.data (Reply.body out.1)
     = Some {| city := Some (js "臺北市");
               updateTime := js "三十六小時天氣預報";
               forecasts :=
                 [{| startTime := js Sample.t0; endTime := js Sample.t1;
                     weather := js "晴"; rain := []; minTemp := [];
                     maxTemp := []; comfort := []; windSpeed := [] |}] |}.
Proof. cbv zeta. split; vm_compute; reflexivity. Qed.

Example scenario_unsupported_location :
  let out :=
    getWeatherByLocation Sample.apiKey Sample.upstreamOk
      (Sample.request "火星") 0 0 Sample.freshWorld in
  Reply.status out.1 = 400
  /\ Reply.allowed (Reply.body out.1) = Some VALID_LOCATIONS
  /\ upstreamCalls out.2 = [].
Proof. cbv zeta. split; [| split]; vm_compute; reflexivity. Qed.

Example scenario_second_request_cached :
  let first :=
    getWeatherByLocation Sample.apiKey Sample.upstreamOk
      (Sample.request "kaohsiung") 1000 1200 Sample.freshWorld in
  let second :=
    getWeatherByLocation Sample.apiKey Sample.upstreamOk
      (Sample.request "高雄市") 60000 60200 first.2 in
  Reply.cached (Reply.body first.1) = None
  /\ Reply.cached (Reply.body second.1) = Some true
  /\ Reply.data (Reply.body second.1) = Reply.data (Reply.body first.1)
  /\ upstreamCalls second.2 = [js "高雄市"].
Proof. cbv zeta. split; [| split; [| split]]; vm_compute; reflexivity. Qed.

Example scenario_expired_entry_refetched :
  let first :=
    getWeatherByLocation Sample.apiKey Sample.upstreamOk
      (Sample.request "kaohsiung") 1000 1200 Sample.freshWorld in
  let later :=
    getWeatherByLocation Sample.apiKey Sample.upstreamOk
      (Sample.request "kaohsiung") 181201 181400 first.2 in
  Reply.cached (Reply.body later.1) = None
  /\ upstreamCalls later.2 = [js "高雄市"; js "高雄市"].
Proof. cbv zeta. split; vm_compute; reflexivity. Qed.

(* ===================================================================== *)
(* Further properties of the location resolver                           *)
(* ===================================================================== *)

Section TrimFacts.
Implicit Types (s : jsstring) (c : N).

Lemma trimStart_app_nows s c :
  isWhiteSpace c = false -> trimStart (s ++ [c]) = trimStart s ++ [c].
Proof.
  intros Hc. induction s as [| a s IH]; cbn [app trimStart].
  - by rewrite Hc.
  - destruct (isWhiteSpace a); [exact IH | reflexivity].
Qed.

Lemma trimEnd_cons_nows s c :
  isWhiteSpace c = false -> trimEnd (c :: s) = c :: trimEnd s.
Proof.
  intros Hc. unfold trimEnd. cbn [rev].
  rewrite (trimStart_app_nows _ _ Hc), rev_app_distr. reflexivity.
Qed.

Lemma trimStart_head s :
  match trimStart s with
  | [] => True
  | c :: _ => isWhiteSpace c = false
  end.
Proof.
  induction s as [| a s IH]; cbn [trimStart]; [done |].
  destruct (isWhiteSpace a) eqn:Ha; [exact IH | exact Ha].
Qed.

Lemma trim_cons_nows s c :
  isWhiteSpace c = false -> trim (c :: s) = c :: trimEnd s.
Proof.
  intros Hc. unfold trim. cbn [trimStart]. rewrite Hc.
  by apply trimEnd_cons_nows.
Qed.

Lemma trimEnd_idemp s : trimEnd (trimEnd s) = trimEnd s.
Proof.
  unfold trimEnd. rewrite rev_involutive.
  pose proof (trimStart_head (rev s)) as Hh.
  destruct (trimStart (rev s)) as [| c r] eqn:Hr; [reflexivity |].
  cbn [trimStart]. by rewrite Hh.
Qed.

Lemma trim_idemp s : trim (trim s) = trim s.
Proof.
  unfold trim at 2 3. pose proof (trimStart_head s) as Hh.
  destruct (trimStart s) as [| c r]; [reflexivity |].
  rewrite (trimEnd_cons_nows _ _ Hh), (trim_cons_nows _ _ Hh).
  by rewrite trimEnd_idemp.
Qed.

End TrimFacts.

Section ResolverFacts.
Implicit Types (k raw input s : jsstring).

Lemma js_tai_units : js "台" = [21488%N] /\ js "臺" = [33274%N].
Proof. split; vm_compute; reflexivity. Qed.

Lemma startsWith_tai raw :
  startsWith raw (js "台") = true -> exists rest, raw = 21488%N :: rest.
Proof.
  destruct js_tai_units as [-> _]. destruct raw as [| c rest]; [discriminate |].
  cbn [startsWith]. intros H. apply andb_prop in H as [H _].
  apply N.eqb_eq in H as <-. by exists rest.
Qed.

Lemma taiReplaced_tai rest :
  taiReplaced (21488%N :: rest) = 33274%N :: rest.
Proof.
  unfold taiReplaced. destruct js_tai_units as [-> ->]. cbn [startsWith].
  rewrite N.eqb_refl. by destruct rest.
Qed.

Lemma taiReplaced_other raw :
  startsWith raw (js "台") = false -> taiReplaced raw = raw.
Proof. intros H. unfold taiReplaced. by rewrite H. Qed.

Lemma taiReplaced_cases raw :
  (startsWith raw (js "台") = false /\ taiReplaced raw = raw)
  \/ (exists rest, raw = 21488%N :: rest
                   /\ taiReplaced raw = 33274%N :: rest).
Proof.
  destruct (startsWith raw (js "台")) eqn:Hs.
  - right. destruct (startsWith_tai _ Hs) as [rest ->]. exists rest.
    split; [done | apply taiReplaced_tai].
  - left. split; [done | by apply taiReplaced_other].
Qed.

Lemma ownProperty_Some_elem (o : list (jsstring * jsstring)) k v :
  ownProperty o k = Some v -> (k, v) ∈ o.
Proof.
  induction o as [| [k' v'] o IH]; cbn [ownProperty]; [discriminate |].
  destruct (decide (k' = k)) as [-> | _].
  - intros [= ->]. apply list_elem_of_here.
  - intros H. apply list_elem_of_further. by apply IH.
Qed.

Lemma ownProperty_None_head (o : list (jsstring * jsstring)) k c :
  Forall (fun kv => head kv.1 <> Some c) o ->
  head k = Some c -> ownProperty o k = None.
Proof.
  intros Ho Hk. induction Ho as [| [k' v'] o Hh _ IH]; [done |].
  cbn [ownProperty]. destruct (decide (k' = k)) as [-> | _]; [| exact IH].
  by destruct Hh.
Qed.

Lemma aliases_not_zang :
  Forall (fun kv : jsstring * jsstring => head kv.1 <> Some 33274%N)
    LOCATION_ALIASES.
Proof. compute_done. Qed.

Lemma prototype_not_zang :
  Forall (fun k : jsstring => head k <> Some 33274%N) OBJECT_PROTOTYPE_KEYS.
Proof. compute_done. Qed.

Lemma alias_values_canonical :
  Forall (fun kv : jsstring * jsstring =>
            kv.2 ∈ VALID_LOCATIONS /\ kv.2 <> [])
    LOCATION_ALIASES.
Proof. compute_done. Qed.

Lemma canonical_facts :
  Forall (fun c : jsstring =>
            normalizeLocation c = VStr c
            /\ ownProperty LOCATION_ALIASES c = None
            /\ startsWith c (js "台") = false
            /\ (c ∉ OBJECT_PROTOTYPE_KEYS)
            /\ c <> [] /\ trim c = c)
    VALID_LOCATIONS.
Proof. compute_done. Qed.

Lemma aliasHit_zang rest : aliasHit (33274%N :: rest) = None.
Proof.
  unfold aliasHit, aliasGet.
  rewrite (ownProperty_None_head _ (33274%N :: rest) _ aliases_not_zang
             eq_refl).
  destruct (decide (33274%N :: rest ∈ OBJECT_PROTOTYPE_KEYS)) as [Hin |];
    [| reflexivity].
  by destruct (proj1 (Forall_forall _ _) prototype_not_zang _ Hin).
Qed.

Lemma aliasHit_taiReplaced raw :
  aliasHit raw = None -> aliasHit (taiReplaced raw) = None.
Proof.
  intros Hraw. destruct (taiReplaced_cases raw) as [[_ ->] | (rest & _ & ->)];
    [exact Hraw | apply aliasHit_zang].
Qed.

Lemma aliasHit_own raw v :
  ownProperty LOCATION_ALIASES raw = Some v ->
  aliasHit raw = Some (VStr v) /\ v ∈ VALID_LOCATIONS.
Proof.
  intros Hown. apply ownProperty_Some_elem in Hown as Hin.
  destruct (proj1 (Forall_forall _ _) alias_values_canonical _ Hin)
    as [Hv Hne].
  split; [| exact Hv]. unfold aliasHit, aliasGet. rewrite Hown.
  by destruct v.
Qed.

Lemma normalizeLocation_form input :
  normalizeLocation input
  = match aliasHit (trim input) with
    | Some v => v
    | None => VStr (taiReplaced (trim input))
    end.
Proof.
  destruct input as [| c s]; [vm_compute; reflexivity |].
  unfold normalizeLocation. cbn [truthy negb].
  destruct (aliasHit (trim (c :: s))) as [v |] eqn:Hhit; [reflexivity |].
  change (if startsWith (trim (c :: s)) (js "台")
          then js "臺" ++ slice1 (trim (c :: s)) else trim (c :: s))
    with (taiReplaced (trim (c :: s))).
  by rewrite (aliasHit_taiReplaced _ Hhit).
Qed.

End ResolverFacts.

(** X1: normalizeLocation returns the alias-table value when the trimmed
    input hits the table, and otherwise the trimmed input with a leading
    "台" replaced by "臺"; the empty-input test of line 58 and the second
    table lookup of line 68 never change the result. *)
Theorem normalizeLocation_closed_form (input : jsstring) :
  normalizeLocation input
  = match aliasHit (trim input) with
    | Some v => v
    | None =>
      VStr (if startsWith (trim input) (js "台")
            then js "臺" ++ slice1 (trim input) else trim input)
    end.
Proof. apply normalizeLocation_form. Qed.

(** X2: normalizeLocation sees only the trimmed input: an input and the
    same input with its surrounding white space removed normalize
    alike. *)
Theorem normalizeLocation_ignores_padding (input : jsstring) :
  normalizeLocation input = normalizeLocation (trim input).
Proof. by rewrite (normalizeLocation_form (trim input)), trim_idemp,
         <- normalizeLocation_form. Qed.

(** X3: the inputs the resolver accepts are exactly the alias keys and the
    canonical names, up to surrounding white space: the replacement of a
    leading "台" never turns a rejected input into an accepted one. *)
Theorem accepted_inputs (input : jsstring) :
  isValidLocation (normalizeLocation input) = true
  <-> is_Some (ownProperty LOCATION_ALIASES (trim input))
      \/ trim input ∈ VALID_LOCATIONS.
Proof.
  rewrite normalizeLocation_form. split.
  - destruct (ownProperty LOCATION_ALIASES (trim input)) as [v |] eqn:Hown;
      [intros _; left; by exists v |].
    destruct (aliasHit_miss _ Hown) as [-> | ->]; [| discriminate].
    cbn [isValidLocation]. rewrite bool_decide_eq_true. intros Hin. right.
    destruct (taiReplaced_cases (trim input))
      as [[_ Heq] | (rest & Hraw & Heq)]; rewrite Heq in Hin; [exact Hin |].
    exfalso. rewrite Hraw in Hown. clear -Hin Hown.
    apply list_elem_of_In in Hin. vm_compute in Hin.
    repeat (destruct Hin as [Hin | Hin]; try discriminate Hin);
      try contradiction;
      injection Hin as <-; vm_compute in Hown; discriminate Hown.
  - intros [[v Hown] | Hin].
    + destruct (aliasHit_own _ _ Hown) as [-> Hv].
      cbn [isValidLocation]. by rewrite bool_decide_eq_true.
    + destruct (proj1 (Forall_forall _ _) canonical_facts _ Hin)
        as (_ & Hown & Hstart & Hproto & _).
      unfold aliasHit, aliasGet. rewrite Hown.
      destruct (decide (trim input ∈ OBJECT_PROTOTYPE_KEYS)); [done |].
      rewrite (taiReplaced_other _ Hstart).
      cbn [isValidLocation]. by rewrite bool_decide_eq_true.
Qed.

(** X4: normalizing twice changes nothing: a string that normalizeLocation
    returns is trimmed and normalizes to itself. *)
Theorem normalizeLocation_idempotent (input s : jsstring) :
  normalizeLocation input = VStr s ->
  normalizeLocation s = VStr s /\ trim s = s.
Proof.
  rewrite normalizeLocation_form.
  destruct (ownProperty LOCATION_ALIASES (trim input)) as [v |] eqn:Hown.
  - destruct (aliasHit_own _ _ Hown) as [-> Hv]. intros [= <-].
    destruct (proj1 (Forall_forall _ _) canonical_facts _ Hv)
      as (Hn & _ & _ & _ & _ & Ht).
    by split.
  - destruct (aliasHit_miss _ Hown) as [Hhit | Hhit]; rewrite Hhit;
      [| discriminate].
    intros [= <-].
    assert (Htrim : trim (taiReplaced (trim input)) = taiReplaced (trim input)).
    { pose proof (trim_idemp input) as Hidem.
      destruct (taiReplaced_cases (trim input))
        as [[_ ->] | (rest & Hraw & ->)]; [exact Hidem |].
      rewrite Hraw in Hidem.
      rewrite trim_cons_nows in Hidem by (vm_compute; reflexivity).
      rewrite trim_cons_nows by (vm_compute; reflexivity).
      injection Hidem as Hidem. by rewrite Hidem. }
    split; [| exact Htrim].
    rewrite normalizeLocation_form, Htrim.
    rewrite (aliasHit_taiReplaced _ Hhit). f_equal.
    destruct (taiReplaced_cases (trim input))
      as [[Hs ->] | (rest & _ & ->)]; [by apply taiReplaced_other |].
    apply taiReplaced_other. destruct js_tai_units as [-> _].
    reflexivity.
Qed.

Lemma normalizeLocation_idempotent_witness :
  normalizeLocation (js " 台西鄉 ") = VStr (js "臺西鄉")
  /\ normalizeLocation (js "臺西鄉") = VStr (js "臺西鄉").
Proof.
  assert (H : normalizeLocation (js " 台西鄉 ") = VStr (js "臺西鄉"))
    by (vm_compute; reflexivity).
  split; [exact H |].
  exact (proj1 (normalizeLocation_idempotent _ _ H)).
Defined.

(* ===================================================================== *)
(* Further properties of the cache                                       *)
(* ===================================================================== *)

(** X5: storing again under a key replaces the entry: the Map is the one
    a single store of the second value would give, so the first value and
    its expiry are forgotten and the 3 minutes count from the second
    store, also when the first entry had already expired. *)
Theorem setCache_overwrites
    (V : Type) (c : gmap jsstring (CacheEntry V)) (k : jsstring)
    (v1 v2 : V) (t1 t2 t : Z) :
  setCache (setCache c t1 k v1) t2 k v2 = setCache c t2 k v2
  /\ (t <= t2 + CACHE_TTL_MS ->
      (getCache (setCache (setCache c t1 k v1) t2 k v2) t k).1 = Some v2)
  /\ (t2 + CACHE_TTL_MS < t ->
      (getCache (setCache (setCache c t1 k v1) t2 k v2) t k).1 = None).
Proof.
  assert (Heq : setCache (setCache c t1 k v1) t2 k v2 = setCache c t2 k v2)
    by (unfold setCache; apply insert_insert_eq).
  rewrite Heq. split; [reflexivity |]. split; intros Ht.
  - by rewrite getCache_fresh.
  - by rewrite getCache_stale.
Qed.

Lemma setCache_overwrites_witness :
  200000 <= 190000 + CACHE_TTL_MS
  /\ (getCache
        (setCache (setCache ∅ 1000 (js "高雄市") Sample.weatherData) 190000
           (js "高雄市") Sample.weatherData) 200000 (js "高雄市")).1
     = Some Sample.weatherData.
Proof.
  assert (H : 200000 <= 190000 + CACHE_TTL_MS)
    by (unfold CACHE_TTL_MS; lia).
  split; [exact H |].
  exact (proj1 (proj2 (setCache_overwrites WeatherData ∅ (js "高雄市")
                         Sample.weatherData Sample.weatherData 1000 190000
                         200000)) H).
Defined.

(** X6: entries under different keys do not interfere: a store under k
    does not change what a lookup of another key k' returns, and the
    lookup of k' (which may evict the expired entry of k') leaves the
    entry of k as it is. *)
Theorem cache_keys_independent
    (V : Type) (c : gmap jsstring (CacheEntry V)) (k k' : jsstring)
    (v : V) (t0 t : Z) :
  k <> k' ->
  (getCache (setCache c t0 k v) t k').1 = (getCache c t k').1
  /\ (getCache (setCache c t0 k v) t k').2
     = setCache (getCache c t k').2 t0 k v
  /\ (getCache c t k').2 !! k = c !! k.
Proof.
  intros Hne. unfold getCache, setCache.
  rewrite lookup_insert_ne by done.
  destruct (c !! k') as [hit |]; [| done].
  destruct (t >? expires hit); cbn [fst snd]; [| done].
  split; [done |]. split.
  - by rewrite delete_insert_ne.
  - by rewrite lookup_delete_ne.
Qed.

Lemma cache_keys_independent_witness :
  js "高雄市" <> js "臺北市"
  /\ (getCache (setCache ∅ 1000 (js "高雄市") Sample.weatherData) 2000
        (js "臺北市")).1 = None.
Proof.
  assert (H : js "高雄市" <> js "臺北市") by (vm_compute; discriminate).
  split; [exact H |].
  rewrite (proj1 (cache_keys_independent WeatherData ∅ _ _
                    Sample.weatherData 1000 2000 H)).
  reflexivity.
Defined.

Lemma getCache_cases
    (V : Type) (c : gmap jsstring (CacheEntry V)) (k : jsstring) (t : Z) :
  let r := (getCache c t k).1 in
  let c' := (getCache c t k).2 in
  (forall k', k' <> k -> c' !! k' = c !! k')
  /\ match c !! k with
     | None => r = None /\ c' = c
     | Some e =>
       if decide (t <= expires e)
       then r = Some (data e) /\ c' = c
       else r = None /\ c' = delete k c
     end.
Proof.
  cbv zeta. unfold getCache. destruct (c !! k) as [e |] eqn:He; [| done].
  rewrite Z.gtb_ltb. destruct (Z.ltb_spec (expires e) t);
    destruct (decide (t <= expires e)); try lia; cbn [fst snd].
  - split; [| done]. intros k' Hne. by rewrite lookup_delete_ne.
  - done.
Qed.

Lemma getCache_result_lookup
    (V : Type) (c1 c2 : gmap jsstring (CacheEntry V)) (k : jsstring) (t : Z) :
  c1 !! k = c2 !! k -> (getCache c1 t k).1 = (getCache c2 t k).1.
Proof.
  intros H. unfold getCache. rewrite H.
  destruct (c2 !! k) as [e |]; [| reflexivity].
  by destruct (t >? expires e).
Qed.

(** X7: reading does not renew or disturb anything: when the clock does
    not run backwards, what a lookup returns is the same whether or not
    another lookup (of the same key or of another one) came before it.
    In particular a hit does not postpone the expiry of the entry. *)
Theorem lookups_do_not_interfere
    (V : Type) (c : gmap jsstring (CacheEntry V)) (k k' : jsstring)
    (t1 t2 : Z) :
  t1 <= t2 ->
  (getCache (getCache c t1 k).2 t2 k').1 = (getCache c t2 k').1.
Proof.
  intros Hle. destruct (getCache_cases V c k t1) as [Hframe Hk].
  destruct (decide (k' = k)) as [-> | Hne];
    [| by apply getCache_result_lookup, Hframe].
  destruct (c !! k) as [e |] eqn:He.
  - destruct (decide (t1 <= expires e)) as [_ | Hexp].
    + destruct Hk as [_ ->]. reflexivity.
    + destruct Hk as [_ ->].
      rewrite getCache_absent by apply lookup_delete_eq.
      unfold getCache. rewrite He, Z.gtb_ltb.
      destruct (Z.ltb_spec (expires e) t2); [reflexivity | lia].
  - destruct Hk as [_ ->]. reflexivity.
Qed.

Lemma lookups_do_not_interfere_witness :
  let c := setCache ∅ 1000 (js "高雄市") Sample.weatherData in
  2000 <= 181001
  /\ (getCache (getCache c 2000 (js "高雄市")).2 181001 (js "高雄市")).1
     = None.
Proof.
  cbv zeta. assert (H : 2000 <= 181001) by lia. split; [exact H |].
  rewrite (lookups_do_not_interfere WeatherData _ (js "高雄市")
             (js "高雄市") 2000 181001 H).
  apply (f_equal fst (getCache_stale ∅ (js "高雄市") Sample.weatherData
                        1000 181001 ltac:(unfold CACHE_TTL_MS; lia))).
Defined.

(* ===================================================================== *)
(* Further properties of the forecast transformer                        *)
(* ===================================================================== *)

(** X8: a field for which the payload has no block is the empty string in
    every emitted record (so a payload with no element block at all gives
    records with empty content). *)
Theorem field_without_block_empty
    (records : option Cwa.Records) (locationData : Cwa.Location)
    (fld : Field) :
  Forall (fun e => ~ writes e fld) (weatherElementsOf locationData) ->
  Forall (fun f => getField fld f = [])
    (forecasts (buildWeatherData records locationData)).
Proof.
  intros Hnone. apply Forall_lookup. intros i f Hf.
  apply forecasts_lookup in Hf as [_ ->]. unfold forecastAt.
  rewrite (fold_no_writer _ _ _ _ Hnone). by destruct fld.
Qed.

Lemma field_without_block_empty_witness :
  let loc := {| Cwa.locationName := Some (js "高雄市");
                Cwa.weatherElement := Some [Sample.wx; Sample.pop] |} in
  Forall (fun e => ~ writes e FComfort) (weatherElementsOf loc)
  /\ Forall (fun f => comfort f = [])
       (forecasts (buildWeatherData None loc)).
Proof.
  cbv zeta.
  assert (H : Forall (fun e => ~ writes e FComfort)
                (weatherElementsOf
                   {| Cwa.locationName := Some (js "高雄市");
                      Cwa.weatherElement := Some [Sample.wx; Sample.pop] |}))
    by no_later_writer.
  split; [exact H |].
  exact (field_without_block_empty None _ FComfort H).
Defined.

Section UnitShape.
Implicit Types (f : Forecast) (e : Cwa.WeatherElement) (i : nat).

Lemma withUnit_shape (val : option jsstring) (u : jsstring) :
  emptyOrUnit u (withUnit val u).
Proof.
  destruct val as [[| c s] |]; cbn [withUnit]; [by left | | by left].
  right. by exists (c :: s).
Qed.

Lemma applyElement_unitShaped i f e :
  unitShaped f -> unitShaped (applyElement i f e).
Proof.
  pose proof (withUnit_shape (valueAt e i) (js "%")) as Hp.
  pose proof (withUnit_shape (valueAt e i) (js "°C")) as Hc.
  unfold unitShaped. switch_cases; intros (Hr & Hmin & Hmax);
    (split; [| split]);
    cbn [rain minTemp maxTemp set_weather set_rain set_minTemp
         set_maxTemp set_comfort];
    assumption.
Qed.

Lemma forecastAt_unitShaped (bt : list Cwa.TimeEntry)
    (els : list Cwa.WeatherElement) i :
  unitShaped (forecastAt bt els i).
Proof.
  unfold forecastAt.
  assert (H0 : unitShaped (newForecast bt i))
    by (repeat split; by left).
  revert H0. generalize (newForecast bt i).
  induction els as [| e els IH]; intros f Hf; [done |].
  cbn [fold_left]. by apply IH, applyElement_unitShaped.
Qed.

End UnitShape.

(** X9: in every emitted record, rain is the empty string or a non-empty
    value followed by "%", and minTemp and maxTemp are the empty string or
    a non-empty value followed by "°C". *)
Theorem unit_fields_shape
    (records : option Cwa.Records) (locationData : Cwa.Location) :
  Forall (fun f => emptyOrUnit (js "%") (rain f)
                   /\ emptyOrUnit (js "°C") (minTemp f)
                   /\ emptyOrUnit (js "°C") (maxTemp f))
    (forecasts (buildWeatherData records locationData)).
Proof.
  apply Forall_lookup. intros i f Hf.
  apply forecasts_lookup in Hf as [_ ->]. apply forecastAt_unitShaped.
Qed.

Section Truncation.
Implicit Types (e : Cwa.WeatherElement) (els : list Cwa.WeatherElement)
  (n i : nat).

Lemma valueAt_truncate n e i :
  (i < n)%nat -> valueAt (truncateTimes n e) i = valueAt e i.
Proof.
  intros Hi. unfold valueAt, truncateTimes. cbn [Cwa.time].
  destruct (Cwa.time e) as [ts |]; [| reflexivity].
  cbn. by rewrite lookup_take_lt.
Qed.

Lemma applyElement_truncate n e i (f : Forecast) :
  (i < n)%nat -> applyElement i f (truncateTimes n e) = applyElement i f e.
Proof.
  intros Hi. unfold applyElement. rewrite (valueAt_truncate _ _ _ Hi).
  reflexivity.
Qed.

Lemma fold_truncate n els i (f : Forecast) :
  (i < n)%nat ->
  fold_left (applyElement i) (truncateTimes n <$> els) f
  = fold_left (applyElement i) els f.
Proof.
  intros Hi. revert f. induction els as [| e els IH]; intros f; [done |].
  cbn [fmap list_fmap fold_left]. rewrite (applyElement_truncate _ _ _ _ Hi).
  apply IH.
Qed.

Lemma wxElOf_truncate n els :
  wxElOf (truncateTimes n <$> els) = truncateTimes n <$> wxElOf els.
Proof.
  unfold wxElOf.
  assert (Hfind : List.find isWx (truncateTimes n <$> els)
                  = truncateTimes n <$> List.find isWx els).
  { induction els as [| e els IH]; [done |].
    cbn [fmap list_fmap List.find].
    change (isWx (truncateTimes n e)) with (isWx e).
    destruct (isWx e); [reflexivity | exact IH]. }
  rewrite Hfind. destruct (List.find isWx els); [reflexivity |].
  by destruct els.
Qed.

Lemma baseTimesOf_truncate n els :
  baseTimesOf (truncateTimes n <$> els) = take n (baseTimesOf els).
Proof.
  unfold baseTimesOf. rewrite wxElOf_truncate.
  destruct (wxElOf els) as [e |]; cbn; [| by rewrite take_nil].
  destruct (Cwa.time e); cbn; [reflexivity | by rewrite take_nil].
Qed.

End Truncation.

(** X10: entries of a block past the length of the timeline are never
    read: dropping them from every block gives the same weatherData. *)
Theorem entries_past_timeline_ignored
    (records : option Cwa.Records) (locationData : Cwa.Location) :
  let els := weatherElementsOf locationData in
  let n := length (baseTimesOf els) in
  buildWeatherData records
    {| Cwa.locationName := Cwa.locationName locationData;
       Cwa.weatherElement := Some (truncateTimes n <$> els) |}
  = buildWeatherData records locationData.
Proof.
  cbv zeta. unfold buildWeatherData. cbn [Cwa.locationName].
  generalize (weatherElementsOf locationData). intros els.
  change (weatherElementsOf _)
    with (truncateTimes (length (baseTimesOf els)) <$> els).
  f_equal. rewrite baseTimesOf_truncate, firstn_all.
  apply list_eq. intros i. rewrite !list_lookup_fmap.
  destruct (seq 0 (length (baseTimesOf els)) !! i) as [j |] eqn:Hj;
    [| reflexivity].
  apply lookup_seq in Hj as [-> Hlt]. cbn. f_equal.
  unfold forecastAt. by apply fold_truncate.
Qed.

(* ===================================================================== *)
(* Further properties of the request handler                             *)
(* ===================================================================== *)

Section HandlerCases.
Variable key : option jsstring.
Variable axios : nat -> jsstring -> AxiosResult.
Implicit Types (req : Request) (w : World) (name : jsstring).

Lemma handler_cases req (tL tS : Z) w :
  let out := getWeatherByLocation key axios req tL tS w in
  out = (missingApiKey, w)
  \/ out = (missingLocation, w)
  \/ (exists v, isValidLocation v = false
                /\ out = (unsupportedLocation v, w))
  \/ (exists name,
        truthy (VStr (default [] key)) = true
        /\ normalizeLocation (requestInput req) = VStr name
        /\ name ∈ VALID_LOCATIONS
        /\ out = serveLocation axios name tL tS w).
Proof.
  cbv zeta.
  destruct (truthy (VStr (default [] key))) eqn:Hkey;
    [| left; by apply handler_nokey].
  destruct (isValidLocation (normalizeLocation (requestInput req)))
    eqn:Hvalid.
  - destruct (normalizeLocation (requestInput req)) as [name | p] eqn:Hname;
      [| discriminate].
    right. right. right. exists name. split; [done |]. split; [done |].
    split; [| by apply handler_valid].
    cbn [isValidLocation] in Hvalid. by apply bool_decide_eq_true in Hvalid.
  - rewrite handler_invalid by done.
    destruct (truthy (normalizeLocation (requestInput req)));
      [| right; by left].
    right. right. left. by eexists.
Qed.

Lemma serveLocation_cases name (tL tS : Z) w :
  let out := serveLocation axios name tL tS w in
  let called :=
    {| cache := (getCache (cache w) tL name).2;
       upstreamCalls := upstreamCalls w ++ [name] |} in
  (exists d, (getCache (cache w) tL name).1 = Some d
             /\ out = (Reply.ok d (Some true), w))
  \/ ((getCache (cache w) tL name).1 = None
      /\ (out = (notFound name, called)
          \/ (exists st b,
                axios (length (upstreamCalls w)) name
                = RejectedWithResponse st b
                /\ out = (upstreamError st b, called))
          \/ out = (serverError, called)
          \/ (exists wd,
                out = (Reply.ok wd None,
                       {| cache := setCache (cache called) tS name wd;
                          upstreamCalls := upstreamCalls called |})))).
Proof.
  cbv zeta. destruct (getCache (cache w) tL name).1 as [d |] eqn:Hget.
  - left. exists d. split; [done |]. by apply serveLocation_hit.
  - right. split; [done |]. rewrite (serveLocation_miss _ _ _ _ _ Hget).
    cbv zeta.
    destruct (axios (length (upstreamCalls w)) name) as [d | st b |].
    + destruct (pickFirstLocation (d ≫= Cwa.records)) as [loc |];
        [| by left].
      right. right. right. by eexists.
    + right. left. by exists st, b.
    + right. right. by left.
Qed.

Lemma getCache_keys (c : gmap jsstring (CacheEntry WeatherData))
    (t : Z) (k k' : jsstring) :
  is_Some ((getCache c t k).2 !! k') -> is_Some (c !! k').
Proof.
  destruct (getCache_cases _ c k t) as [Hframe Hk].
  destruct (decide (k' = k)) as [-> | Hne]; [| by rewrite Hframe].
  destruct (c !! k) as [e |] eqn:He; [by eexists |].
  destruct Hk as [_ ->]. by rewrite He.
Qed.

End HandlerCases.

Lemma canonicalKeys_size (c : gmap jsstring (CacheEntry WeatherData)) :
  canonicalKeys c -> (size c <= 22)%nat.
Proof.
  intros Hc. rewrite <- size_dom.
  assert (Hsub : dom c ⊆ (list_to_set VALID_LOCATIONS : gset jsstring)).
  { intros k Hk. apply elem_of_dom in Hk. apply elem_of_list_to_set.
    by apply Hc. }
  apply subseteq_size in Hsub.
  rewrite size_list_to_set in Hsub by compute_done.
  exact Hsub.
Qed.

(** X11: one request makes at most one upstream call, and a call is only
    ever made for a canonical location name, the one the request's input
    normalizes to: no unvalidated input reaches the upstream. *)
Theorem upstream_called_with_canonical_name
    (key : option jsstring) (axios : nat -> jsstring -> AxiosResult)
    (req : Request) (tL tS : Z) (w : World) :
  let out := getWeatherByLocation key axios req tL tS w in
  upstreamCalls out.2 = upstreamCalls w
  \/ (exists name,
        name ∈ VALID_LOCATIONS
        /\ normalizeLocation (requestInput req) = VStr name
        /\ (getCache (cache w) tL name).1 = None
        /\ upstreamCalls out.2 = upstreamCalls w ++ [name]).
Proof.
  cbv zeta.
  destruct (handler_cases key axios req tL tS w)
    as [-> | [-> | [(v & _ & ->) | (name & _ & Hname & Hin & ->)]]];
    try by left.
  destruct (serveLocation_cases axios name tL tS w)
    as [(d & _ & ->) | (Hmiss & Hout)]; [by left |].
  right. exists name. split; [done |]. split; [done |]. split; [done |].
  destruct Hout as [-> | [(st & b & _ & ->) | [-> | (wd & ->)]]]; done.
Qed.

(** X12: the handler keeps the keys of the cache canonical: if every key
    of the cache is a canonical location name before a request, so it is
    after it, and the cache then holds at most 22 entries. *)
Theorem cache_keys_stay_canonical
    (key : option jsstring) (axios : nat -> jsstring -> AxiosResult)
    (req : Request) (tL tS : Z) (w : World) :
  canonicalKeys (cache w) ->
  let out := getWeatherByLocation key axios req tL tS w in
  canonicalKeys (cache out.2) /\ (size (cache out.2) <= 22)%nat.
Proof.
  intros Hw. cbv zeta.
  assert (Hout : canonicalKeys
                   (cache (getWeatherByLocation key axios req tL tS w).2));
    [| split; [exact Hout | by apply canonicalKeys_size]].
  destruct (handler_cases key axios req tL tS w)
    as [-> | [-> | [(v & _ & ->) | (name & _ & Hname & Hin & ->)]]];
    try exact Hw.
  assert (Hcalled : canonicalKeys (getCache (cache w) tL name).2)
    by (intros k Hk; by apply Hw, (getCache_keys _ tL name)).
  destruct (serveLocation_cases axios name tL tS w)
    as [(d & _ & ->) | (_ & [-> | [(st & b & _ & ->) | [-> | (wd & ->)]]])];
    try exact Hw; try exact Hcalled.
  cbn [snd cache]. intros k Hk. unfold setCache in Hk.
  destruct (decide (k = name)) as [-> | Hne]; [exact Hin |].
  rewrite lookup_insert_ne in Hk by done. by apply Hcalled.
Qed.

Lemma cache_keys_stay_canonical_witness :
  canonicalKeys (cache Sample.freshWorld)
  /\ (size (cache (getWeatherByLocation Sample.apiKey Sample.upstreamOk
                     (Sample.request "taipei") 0 0 Sample.freshWorld).2)
      <= 22)%nat.
Proof.
  assert (H : canonicalKeys (cache Sample.freshWorld)).
  { intros k [e He]. cbn in He. by rewrite lookup_empty in He. }
  split; [exact H |].
  exact (proj2 (cache_keys_stay_canonical Sample.apiKey Sample.upstreamOk
                  (Sample.request "taipei") 0 0 Sample.freshWorld H)).
Defined.

(** X13: when the upstream answers 2xx but its body has no records, no
    location list or an empty one, the reply is 404 with no data, nothing
    is stored in the cache, and the upstream was called once. *)
Theorem upstream_without_location_404
    (key : option jsstring) (axios : nat -> jsstring -> AxiosResult)
    (req : Request) (tL tS : Z) (w : World) (name : jsstring)
    (d : option Cwa.Data) :
  truthy (VStr (default [] key)) = true ->
  normalizeLocation (requestInput req) = VStr name ->
  isValidLocation (VStr name) = true ->
  (getCache (cache w) tL name).1 = None ->
  axios (length (upstreamCalls w)) name = Fulfilled d ->
  (d ≫= Cwa.records) ≫= Cwa.location = None
  \/ (d ≫= Cwa.records) ≫= Cwa.location = Some [] ->
  let out := getWeatherByLocation key axios req tL tS w in
  Reply.status out.1 = 404
  /\ Reply.success (Reply.body out.1) = false
  /\ Reply.data (Reply.body out.1) = None
  /\ Reply.message (Reply.body out.1)
     = Some (Reply.Template (js "無法取得 ") (VStr name) (js " 天氣資料"))
  /\ cache out.2 = (getCache (cache w) tL name).2
  /\ upstreamCalls out.2 = upstreamCalls w ++ [name].
Proof.
  intros Hkey Hname Hvalid Hmiss Hax Hloc. cbv zeta.
  rewrite (handler_valid _ _ _ _ _ _ _ Hkey Hname Hvalid).
  rewrite (serveLocation_miss _ _ _ _ _ Hmiss). cbv zeta. rewrite Hax.
  assert (Hpick : pickFirstLocation (d ≫= Cwa.records) = None)
    by (unfold pickFirstLocation; by destruct Hloc as [-> | ->]).
  rewrite Hpick. by split_and!.
Qed.

Lemma upstream_without_location_404_witness :
  let out :=
    getWeatherByLocation Sample.apiKey SampleMore.upstreamEmpty
      (Sample.request "yilan") 0 0 Sample.freshWorld in
  normalizeLocation (requestInput (Sample.request "yilan"))
  = VStr (js "宜蘭縣")
  /\ Reply.status out.1 = 404
  /\ upstreamCalls out.2 = [js "宜蘭縣"].
Proof.
  cbv zeta.
  assert (Hname : normalizeLocation (requestInput (Sample.request "yilan"))
                  = VStr (js "宜蘭縣")) by (vm_compute; reflexivity).
  split; [exact Hname |].
  destruct (upstream_without_location_404 Sample.apiKey
              SampleMore.upstreamEmpty (Sample.request "yilan") 0 0
              Sample.freshWorld (js "宜蘭縣")
              (Some {| Cwa.records := None |}))
    as (Hstatus & _ & _ & _ & _ & Hcalls);
    [vm_compute; reflexivity | exact Hname | vm_compute; reflexivity
     | reflexivity | reflexivity | left; reflexivity |].
  split; [exact Hstatus | exact Hcalls].
Defined.



(** X15: a request that is not answered with success never adds or
    changes a cache entry: the cache is as before, except that the
    expired entry of the requested location, if the lookup found one, has
    been removed. *)
Theorem failed_request_stores_nothing
    (key : option jsstring) (axios : nat -> jsstring -> AxiosResult)
    (req : Request) (tL tS : Z) (w : World) :
  let out := getWeatherByLocation key axios req tL tS w in
  Reply.success (Reply.body out.1) = false ->
  cache out.2 = cache w
  \/ (exists name e,
        normalizeLocation (requestInput req) = VStr name
        /\ cache w !! name = Some e /\ expires e < tL
        /\ cache out.2 = delete name (cache w)).
Proof.
  cbv zeta. intros Hfail.
  destruct (handler_cases key axios req tL tS w)
    as [Hout | [Hout | [(v & _ & Hout) | (name & _ & Hname & _ & Hout)]]];
    rewrite Hout in Hfail |- *; try by left.
  assert (Hcalled :
            (getCache (cache w) tL name).2 = cache w
            \/ (exists e, cache w !! name = Some e /\ expires e < tL
                          /\ (getCache (cache w) tL name).2
                             = delete name (cache w))).
  { destruct (getCache_cases _ (cache w) name tL) as [_ Hk].
    destruct (cache w !! name) as [e |] eqn:He; [| left; by destruct Hk].
    destruct (decide (tL <= expires e)); [left; by destruct Hk |].
    right. exists e. split; [done |]. split; [lia | by destruct Hk]. }
  destruct (serveLocation_cases axios name tL tS w)
    as [(d & _ & Hs)
       | (_ & [Hs | [(st & b & _ & Hs) | [Hs | (wd & Hs)]]])];
    rewrite Hs in Hfail |- *; try discriminate; try by left.
  all: cbn [snd cache];
    destruct Hcalled as [-> | (e & He & Hexp & ->)];
    [by left | right; by exists name, e].
Qed.

Lemma failed_request_stores_nothing_witness :
  let w := {| cache := setCache ∅ 1000 (js "高雄市") Sample.weatherData;
              upstreamCalls := [js "高雄市"] |} in
  let out :=
    getWeatherByLocation Sample.apiKey Sample.upstreamDown
      (Sample.request "kaohsiung") 200000 200200 w in
  Reply.success (Reply.body out.1) = false
  /\ (cache out.2 = cache w
      \/ exists name e,
           normalizeLocation (requestInput (Sample.request "kaohsiung"))
           = VStr name
           /\ cache w !! name = Some e /\ expires e < 200000
           /\ cache out.2 = delete name (cache w)).
Proof.
  cbv zeta.
  assert (H : Reply.success
                (Reply.body
                   (getWeatherByLocation Sample.apiKey Sample.upstreamDown
                      (Sample.request "kaohsiung") 200000 200200
                      {| cache := setCache ∅ 1000 (js "高雄市")
                                    Sample.weatherData;
                         upstreamCalls := [js "高雄市"] |}).1) = false)
    by (vm_compute; reflexivity).
  split; [exact H |].
  exact (failed_request_stores_nothing Sample.apiKey Sample.upstreamDown
           (Sample.request "kaohsiung") 200000 200200 _ H).
Defined.

Ltac settle_reply :=
  cbn [fst]; split; [| split]; (split; intros Hx);
  first [ discriminate Hx
        | reflexivity
        | by eexists
        | by inversion Hx
        | idtac ].

(** X16: the success flag, the HTTP status and the data go together: as
    long as a rejection of axios.get never carries status 200 (axios
    rejects non-2xx replies), the reply has success true exactly when its
    status is 200, exactly when it carries data; every other reply
    carries an error text instead. *)
Theorem success_iff_status_200
    (key : option jsstring) (axios : nat -> jsstring -> AxiosResult)
    (req : Request) (tL tS : Z) (w : World) :
  (forall n nm st b, axios n nm = RejectedWithResponse st b -> st <> 200) ->
  let out := getWeatherByLocation key axios req tL tS w in
  (Reply.success (Reply.body out.1) = true <-> Reply.status out.1 = 200)
  /\ (Reply.success (Reply.body out.1) = true
      <-> is_Some (Reply.data (Reply.body out.1)))
  /\ (Reply.success (Reply.body out.1) = false
      <-> is_Some (Reply.error (Reply.body out.1))).
Proof.
  intros Hax. cbv zeta.
  destruct (handler_cases key axios req tL tS w)
    as [-> | [-> | [(v & _ & ->) | (name & _ & _ & _ & ->)]]];
    [settle_reply | settle_reply | settle_reply |].
  destruct (serveLocation_cases axios name tL tS w)
    as [(d & _ & ->)
       | (_ & [-> | [(st & b & Hrej & ->) | [-> | (wd & ->)]]])];
    settle_reply.
  cbn in Hx. by destruct (Hax _ _ _ _ Hrej).
Qed.

Lemma success_iff_status_200_witness :
  let out :=
    getWeatherByLocation Sample.apiKey Sample.upstream401
      (Sample.request "taipei") 0 0 Sample.freshWorld in
  (forall n nm st b,
     Sample.upstream401 n nm = RejectedWithResponse st b -> st <> 200)
  /\ Reply.success (Reply.body out.1) = false
  /\ Reply.status out.1 <> 200.
Proof.
  cbv zeta.
  assert (H : forall n nm st b,
            Sample.upstream401 n nm = RejectedWithResponse st b -> st <> 200)
    by (intros n nm st b [= <- _]; discriminate).
  split; [exact H |].
  assert (Hf : Reply.success
                 (Reply.body
                    (getWeatherByLocation Sample.apiKey Sample.upstream401
                       (Sample.request "taipei") 0 0 Sample.freshWorld).1)
               = false) by (vm_compute; reflexivity).
  split; [exact Hf |].
  destruct (success_iff_status_200 Sample.apiKey Sample.upstream401
              (Sample.request "taipei") 0 0 Sample.freshWorld H)
    as ([_ Hstatus] & _).
  intros H200. rewrite (Hstatus H200) in Hf. discriminate Hf.
Defined.

(* ===================================================================== *)
(* Properties of the other routes                                        *)
(* ===================================================================== *)

Lemma orElse_nonempty (s y : jsstring) : s <> [] -> orElse (Some s) y = s.
Proof. by destruct s. Qed.

(** X17: GET /api/locations lists the 22 canonical names, each once and
    with name equal to value, and every listed value is accepted by the
    weather handler: with the API key configured, a request whose input
    is a listed value passes validation and is looked up and fetched
    under that same name. *)
Theorem listed_locations_accepted :
  length apiLocations = 22%nat
  /\ NoDup (Locations.value <$> apiLocations)
  /\ (forall entry, entry ∈ apiLocations ->
        Locations.name entry = Locations.value entry
        /\ forall (key : option jsstring)
                  (axios : nat -> jsstring -> AxiosResult)
                  (req : Request) (tL tS : Z) (w : World),
             truthy (VStr (default [] key)) = true ->
             requestInput req = Locations.value entry ->
             getWeatherByLocation key axios req tL tS w
             = serveLocation axios (Locations.value entry) tL tS w).
Proof.
  split; [vm_compute; reflexivity |]. split; [compute_done |].
  intros entry Hin. unfold apiLocations in Hin.
  apply list_elem_of_fmap in Hin as (c & -> & Hc). cbn [Locations.name
    Locations.value]. split; [reflexivity |].
  intros key axios req tL tS w Hkey Hinput.
  destruct (proj1 (Forall_forall _ _) canonical_facts _ Hc) as (Hn & _).
  apply handler_valid; [exact Hkey | by rewrite Hinput |].
  cbn [isValidLocation]. by apply bool_decide_eq_true.
Qed.

Lemma listed_locations_accepted_witness :
  exists entry,
    apiLocations !! 5%nat = Some entry
    /\ Locations.value entry = js "高雄市"
    /\ getWeatherByLocation Sample.apiKey Sample.upstreamDown
         (Sample.request "高雄市") 0 0 Sample.freshWorld
       = serveLocation Sample.upstreamDown (Locations.value entry) 0 0
           Sample.freshWorld.
Proof.
  eexists. split; [vm_compute; reflexivity |].
  split; [vm_compute; reflexivity |].
  destruct listed_locations_accepted as (_ & _ & Hall).
  apply (Hall {| Locations.name := js "高雄市";
                 Locations.value := js "高雄市" |});
    [| vm_compute; reflexivity | vm_compute; reflexivity].
  apply list_elem_of_lookup. exists 5%nat. vm_compute. reflexivity.
Defined.

(** X18: the handler registered for /api/weather/kaohsiung answers, for
    every request, exactly as the path route /api/weather/:city answers a
    request for the slug kaohsiung that has no query parameters: both
    serve the canonical "高雄市". *)
Theorem legacy_route_same_as_slug
    (key : option jsstring) (axios : nat -> jsstring -> AxiosResult)
    (req : Request) (tL tS : Z) (w : World) :
  legacyKaohsiung key axios req tL tS w
  = getWeatherByLocation key axios SampleMore.pathKaohsiung tL tS w.
Proof.
  unfold legacyKaohsiung.
  destruct (truthy (VStr (default [] key))) eqn:Hkey;
    [| by rewrite !handler_nokey].
  assert (Hvalid : isValidLocation (VStr (js "高雄市")) = true)
    by (vm_compute; reflexivity).
  rewrite (handler_valid key axios SampleMore.pathKaohsiung tL tS w
             (js "高雄市") Hkey) by (vm_compute; reflexivity || exact Hvalid).
  apply handler_valid; [exact Hkey | | exact Hvalid].
  unfold requestInput. cbn [query_city].
  rewrite orElse_nonempty by (vm_compute; discriminate).
  vm_compute; reflexivity.
Qed.

Lemma prototype_keys_not_own :
  Forall (fun k : jsstring =>
            ownProperty LOCATION_ALIASES k = None /\ k <> [])
    OBJECT_PROTOTYPE_KEYS.
Proof. compute_done. Qed.

(** X19: an input that, once trimmed, names a member of Object.prototype
    (constructor, toString, __proto__, ...) makes the alias lookup return
    that member instead of a string; isValidLocation rejects it, and the
    handler, with the API key configured, answers 400 with the allowed
    list, touching neither the cache nor the upstream. *)
Theorem prototype_names_rejected
    (key : option jsstring) (axios : nat -> jsstring -> AxiosResult)
    (req : Request) (tL tS : Z) (w : World) :
  truthy (VStr (default [] key)) = true ->
  trim (requestInput req) ∈ OBJECT_PROTOTYPE_KEYS ->
  normalizeLocation (requestInput req) = VProto (trim (requestInput req))
  /\ isValidLocation (normalizeLocation (requestInput req)) = false
  /\ getWeatherByLocation key axios req tL tS w
     = (unsupportedLocation (VProto (trim (requestInput req))), w).
Proof.
  intros Hkey Hin.
  destruct (proj1 (Forall_forall _ _) prototype_keys_not_own _ Hin)
    as [Hown _].
  assert (Hn : normalizeLocation (requestInput req)
               = VProto (trim (requestInput req))).
  { rewrite normalizeLocation_form. unfold aliasHit, aliasGet.
    rewrite Hown. by destruct (decide _). }
  split; [exact Hn |]. rewrite Hn. split; [reflexivity |].
  rewrite handler_invalid by (done || by rewrite Hn). by rewrite Hn.
Qed.

Lemma prototype_names_rejected_witness :
  truthy (VStr (default [] Sample.apiKey)) = true
  /\ (trim (requestInput (Sample.request " toString"))
      ∈ OBJECT_PROTOTYPE_KEYS)
  /\ Reply.status
       (getWeatherByLocation Sample.apiKey Sample.upstreamOk
          (Sample.request " toString") 0 0 Sample.freshWorld).1 = 400.
Proof.
  assert (Hk : truthy (VStr (default [] Sample.apiKey)) = true)
    by (vm_compute; reflexivity).
  assert (Hin : trim (requestInput (Sample.request " toString"))
                ∈ OBJECT_PROTOTYPE_KEYS) by compute_done.
  split; [exact Hk |]. split; [exact Hin |].
  destruct (prototype_names_rejected Sample.apiKey Sample.upstreamOk
              (Sample.request " toString") 0 0 Sample.freshWorld Hk Hin)
    as (_ & _ & ->).
  reflexivity.
Defined.

(* ===================================================================== *)
(* Where the cached data comes from                                      *)
(* ===================================================================== *)

Section Provenance.
Variable key : option jsstring.
Variable axios : nat -> jsstring -> AxiosResult.
Implicit Types (req : Request) (w : World) (name : jsstring).






End Provenance.


